(** * The shopping cart store of the WooCommerce storefront

    A shallow embedding of the cart store, the second module kept in
    [src/stores/auth-store.ts] and imported by the pages as
    [@/stores/cart-store]: the [useCartStore] zustand store, its helpers
    [generateCartItemId] and [calculateTotals], and its selector hooks,
    followed by the properties the specification states about it.

    Conventions of the embedding:
    - a JavaScript [number] is a double. Prices, which reach the store
      as [parseFloat] of a decimal string, are binary64 floats, added
      and multiplied as the code does and in its order. Ids, quantities
      and ceilings, which the store only adds, compares and takes minima
      of, are integers of [Z], exact as long as they stay below 2^53;
    - an optional field ([variationId?], [maxQuantity?], ...) is an
      [option]; [undefined] is [None];
    - a [Record<string, string>] is the list of its entries in the order
      [Object.entries] yields them, with pairwise distinct keys;
    - the state of the store is a record of its two fields, and every
      action is a function from state to state; the object zustand keeps,
      which carries the four computed properties beside the fields, is
      modelled with the way [setState] copies it;
    - [localeCompare], the platform's, is a parameter of the store. *)

From Stdlib Require Import Ascii.
From Corelib Require Import PrimFloat.
From stdpp Require Import base decidable option numbers list sorting strings pretty.

Set Warnings "-register-all".

Local Open Scope string_scope.
Local Open Scope list_scope.
Local Open Scope Z_scope.

(** ** JavaScript built-ins used by the store *)

(** [String(n)] and the template-literal rendering of an integer. *)
Definition String_of (n : Z) : string := pretty n.

(** The double of an integer, exact below 2^53. *)
Fixpoint Number_of_positive (p : positive) : float :=
  match p with
  | xH => 1
  | xO q => 2 * Number_of_positive q
  | xI q => 2 * Number_of_positive q + 1
  end%float.

Definition Number_of (n : Z) : float :=
  match n with
  | Z0 => 0
  | Zpos p => Number_of_positive p
  | Zneg p => - Number_of_positive p
  end%float.

(** Truthiness of an optional number: [undefined] and [0] are falsy. *)
Definition truthy (n : option Z) : bool :=
  match n with
  | Some v => negb (v =? 0)
  | None => false
  end.

(** [Array.prototype.join]. *)
Fixpoint join (sep : string) (l : list string) : string :=
  match l with
  | [] => ""
  | [s] => s
  | s :: rest => s +:+ sep +:+ join sep rest
  end.

(** [Array.prototype.sort] with a comparator. The language requires the
    sort to be stable: an element moves in front of another only when
    the comparator returns a positive number for the pair in their
    current order. A stable insertion sort is the model. *)
Fixpoint sort_insert {A} (compareFn : A → A → Z) (x : A) (l : list A) : list A :=
  match l with
  | [] => [x]
  | y :: rest =>
      if compareFn x y <=? 0 then x :: y :: rest
      else y :: sort_insert compareFn x rest
  end.

Definition Array_sort {A} (compareFn : A → A → Z) (l : list A) : list A :=
  foldr (sort_insert compareFn) [] l.

(** Comparison of strings by code unit: the lexicographic order, and a
    concrete comparator at which the statements below are evaluated. *)
Definition codeUnitCompare (a b : string) : Z :=
  match String.compare a b with
  | Lt => -1
  | Eq => 0
  | Gt => 1
  end.

(** What the language requires of [localeCompare]: a total ordering of
    the strings, in which distinct strings may tie. The sign of a
    comparison turns with its arguments, and "not after" is
    transitive. *)
Record ConsistentComparator (compare : string → string → Z) : Prop := {
  comparator_swap : ∀ a b, compare a b < 0 ↔ 0 < compare b a;
  comparator_trans : ∀ a b c, compare a b ≤ 0 → compare b c ≤ 0 → compare a c ≤ 0;
}.

(** A comparator applied through a function on the strings, and two
    comparators one after the other, the second breaking the ties of
    the first. *)
Definition compare_on (f : string → string) (compare : string → string → Z)
    (a b : string) : Z :=
  compare (f a) (f b).

Definition compare_then (first second : string → string → Z) (a b : string) : Z :=
  if first a b =? 0 then second a b else first a b.

(** The letter é in its two canonically equivalent spellings, as their
    UTF-8 bytes: the single code point U+00E9, and the letter e followed
    by the combining acute accent U+0301. *)
Definition e_acute_composed : string := String "195" (String "169" "").
Definition e_acute_decomposed : string := String "e" (String "204" (String "129" "")).

(** A collation that, as the language requires of [localeCompare],
    returns [0] for canonically equivalent strings: it reads the
    decomposed é as the composed one and compares by code unit
    otherwise. *)
Definition compose (key : string) : string :=
  if decide (key = e_acute_decomposed) then e_acute_composed else key.

Definition canonicalCompare : string → string → Z :=
  compare_on compose codeUnitCompare.

(** A collation that, as the locale collations of the platform do,
    orders letters alphabetically before it looks at their case, the
    lower case first: ["a"] before ["B"], ["a"] before ["A"]. *)
Definition lowercase_ascii (c : ascii) : ascii :=
  let n := nat_of_ascii c in
  if (Nat.leb 65 n && Nat.leb n 90)%bool then ascii_of_nat (n + 32) else c.

Fixpoint lowercase (s : string) : string :=
  match s with
  | EmptyString => EmptyString
  | String c rest => String (lowercase_ascii c) (lowercase rest)
  end.

Definition caseBlindCompare : string → string → Z :=
  compare_then (compare_on lowercase codeUnitCompare) (λ a b, codeUnitCompare b a).

(** ** Data model *)

(** [Record<string, string>], as its [Object.entries]. *)
Definition Attributes : Type := list (string * string).

(** [interface CartItem]. *)
Record CartItem : Type := mkCartItem {
  id : string;
  productId : Z;
  variationId : option Z;
  name : string;
  slug : string;
  price : float;
  regularPrice : option float;
  quantity : Z;
  image : string;
  attributes : option Attributes;
  maxQuantity : option Z;
}.

(** [Omit<CartItem, 'id'>], the argument of [addItem]. *)
Module Omit.
Record CartItem : Type := mk {
  productId : Z;
  variationId : option Z;
  name : string;
  slug : string;
  price : float;
  regularPrice : option float;
  quantity : Z;
  image : string;
  attributes : option Attributes;
  maxQuantity : option Z;
}.
End Omit.

(** [{ ...item, id }]. *)
Definition with_id (item : Omit.CartItem) (id : string) : CartItem :=
  {| id := id;
     productId := Omit.productId item;
     variationId := Omit.variationId item;
     name := Omit.name item;
     slug := Omit.slug item;
     price := Omit.price item;
     regularPrice := Omit.regularPrice item;
     quantity := Omit.quantity item;
     image := Omit.image item;
     attributes := Omit.attributes item;
     maxQuantity := Omit.maxQuantity item |}.

(** [{ ...item, quantity: q }]. *)
Definition with_quantity (item : CartItem) (q : Z) : CartItem :=
  {| id := id item;
     productId := productId item;
     variationId := variationId item;
     name := name item;
     slug := slug item;
     price := price item;
     regularPrice := regularPrice item;
     quantity := q;
     image := image item;
     attributes := attributes item;
     maxQuantity := maxQuantity item |}.

(** [interface CartState]. *)
Record CartState : Type := mkCartState {
  items : list CartItem;
  isOpen : bool;
}.

(** The partial state an updater hands to zustand's [set]; a field that
    is absent keeps its current value. *)
Record Partial : Type := mkPartial {
  set_items : option (list CartItem);
  set_isOpen : option bool;
}.

Definition set (updater : CartState → Partial) (state : CartState) : CartState :=
  let partial := updater state in
  {| items := default (items state) (set_items partial);
     isOpen := default (isOpen state) (set_isOpen partial) |}.

(** The return value of [calculateTotals]. *)
Record Totals : Type := mkTotals {
  total : float;
  subtotal : float;
  itemCount : Z;
}.

(** The sum of a list of numbers, [Σ]. *)
Definition sumZ (l : list Z) : Z := foldr Z.add 0 l.

(** [calculateTotals]: one pass of [reduce] from the zero totals, the
    additions and multiplications of prices being those of doubles. *)
Definition calculateTotals (items : list CartItem) : Totals :=
  fold_left
    (λ acc item,
      {| total := (total acc + price item * Number_of (quantity item))%float;
         subtotal := (subtotal acc + price item * Number_of (quantity item))%float;
         itemCount := itemCount acc + quantity item |})
    items
    {| total := 0%float; subtotal := 0%float; itemCount := 0 |}.

(** ** Selector hooks *)

Definition useCartItems (state : CartState) : list CartItem := items state.
Definition useCartIsOpen (state : CartState) : bool := isOpen state.
Definition useCartTotal (state : CartState) : float :=
  let items := items state in total (calculateTotals items).
Definition useCartItemCount (state : CartState) : Z :=
  let items := items state in itemCount (calculateTotals items).
Definition useCartIsEmpty (state : CartState) : bool := (length (items state) =? 0)%nat.

(** ** The store object and its computed properties *)

(** A computed property of the state object: the accessor the
    initializer installs ([get total() { ... }]), or, on a copy of the
    object, the value that was read when the copy was made. *)
Inductive Computed (A : Type) : Type :=
| Getter
| Value (v : A).

Arguments Getter {A}.
Arguments Value {A} v.

(** The object [get()] returns: the two state fields and the four
    computed properties [total], [subtotal], [itemCount], [isEmpty]. *)
Record StoreObject : Type := mkStoreObject {
  fields : CartState;
  total_property : Computed float;
  subtotal_property : Computed float;
  itemCount_property : Computed Z;
  isEmpty_property : Computed bool;
}.

(** Reading a computed property. An accessor runs its body,
    [calculateTotals(get().items).total] and the like, against the
    object [get()] returns, which is the object read; a value is
    returned as it is. *)
Definition read_total (o : StoreObject) : float :=
  match total_property o with
  | Getter => total (calculateTotals (items (fields o)))
  | Value v => v
  end.

Definition read_subtotal (o : StoreObject) : float :=
  match subtotal_property o with
  | Getter => subtotal (calculateTotals (items (fields o)))
  | Value v => v
  end.

Definition read_itemCount (o : StoreObject) : Z :=
  match itemCount_property o with
  | Getter => itemCount (calculateTotals (items (fields o)))
  | Value v => v
  end.

Definition read_isEmpty (o : StoreObject) : bool :=
  match isEmpty_property o with
  | Getter => (length (items (fields o)) =? 0)%nat
  | Value v => v
  end.

(** The state object after zustand's [setState],
    [Object.assign({}, state, nextState)]: every own property of the
    old object is read, the accessors among them, while [get()] still
    returns the old object, and is defined as a plain value on the new
    one; the fields of [nextState] are then written over it. *)
Definition Object_assign (o : StoreObject) (nextState : CartState) : StoreObject :=
  {| fields := nextState;
     total_property := Value (read_total o);
     subtotal_property := Value (read_subtotal o);
     itemCount_property := Value (read_itemCount o);
     isEmpty_property := Value (read_isEmpty o) |}.


(** ** Persistence *)

(** The persist middleware keeps, under [name], the object
    [{ state: partialize(state), version }] as JSON. The JSON text
    itself is the platform's; the model is the tree of values
    [JSON.stringify] writes and [JSON.parse] rebuilds. A number of the
    tree is carried the way its field is in the embedding: [JNumber] for
    the integers, [JFloat] for the doubles. *)
Inductive JSON : Type :=
| JNull
| JBoolean (b : bool)
| JNumber (n : Z)
| JFloat (x : float)
| JString (s : string)
| JArray (elements : list JSON)
| JObject (properties : list (string * JSON)).

(** What [JSON.stringify] writes for a double: [null] for [NaN] and the
    infinities, [0] for the negative zero, the number itself
    otherwise. *)
Definition Number_toJSON (x : float) : JSON :=
  match classify x with
  | FloatClass.NaN | FloatClass.PInf | FloatClass.NInf => JNull
  | FloatClass.NZero => JFloat 0
  | _ => JFloat x
  end.

(** The doubles that are written as themselves: the finite ones other
    than the negative zero. *)
Definition ordinary (x : float) : Prop :=
  match classify x with
  | FloatClass.NaN | FloatClass.PInf | FloatClass.NInf | FloatClass.NZero => False
  | _ => True
  end.

(** Reading the property [key] of a parsed object; [None] is
    [undefined]. *)
Fixpoint property (key : string) (properties : list (string * JSON)) : option JSON :=
  match properties with
  | [] => None
  | (k, v) :: rest => if String.eqb k key then Some v else property key rest
  end.

(** A property whose value is [undefined] is left out by
    [JSON.stringify]. *)
Definition optional (key : string) (value : option JSON) : list (string * JSON) :=
  match value with
  | Some v => [(key, v)]
  | None => []
  end.

Definition Attributes_toJSON (entries : Attributes) : JSON :=
  JObject ((λ e, (fst e, JString (snd e))) <$> entries).

Definition CartItem_toJSON (item : CartItem) : JSON :=
  JObject
    ([("productId", JNumber (productId item))]
     ++ optional "variationId" (JNumber <$> variationId item)
     ++ [("name", JString (name item));
         ("slug", JString (slug item));
         ("price", Number_toJSON (price item))]
     ++ optional "regularPrice" (Number_toJSON <$> regularPrice item)
     ++ [("quantity", JNumber (quantity item));
         ("image", JString (image item))]
     ++ optional "attributes" (Attributes_toJSON <$> attributes item)
     ++ optional "maxQuantity" (JNumber <$> maxQuantity item)
     ++ [("id", JString (id item))]).

Definition as_number (j : JSON) : option Z :=
  match j with JNumber n => Some n | _ => None end.

Definition as_float (j : JSON) : option float :=
  match j with JFloat x => Some x | _ => None end.

Definition as_string (j : JSON) : option string :=
  match j with JString s => Some s | _ => None end.

Definition as_attributes (j : JSON) : option Attributes :=
  match j with
  | JObject properties => mapM (λ e, pair (fst e) <$> as_string (snd e)) properties
  | _ => None
  end.

(** An optional field: absent reads as [undefined], present must have
    the field's type. *)
Definition read_optional {A} (read : JSON → option A) (value : option JSON)
    : option (option A) :=
  match value with
  | Some v => Some <$> read v
  | None => Some None
  end.

(** A parsed line, read field by field the way the store and its
    consumers access it. *)
Definition CartItem_fromJSON (j : JSON) : option CartItem :=
  match j with
  | JObject properties =>
      id ← property "id" properties ≫= as_string;
      productId ← property "productId" properties ≫= as_number;
      variationId ← read_optional as_number (property "variationId" properties);
      name ← property "name" properties ≫= as_string;
      slug ← property "slug" properties ≫= as_string;
      price ← property "price" properties ≫= as_float;
      regularPrice ← read_optional as_float (property "regularPrice" properties);
      quantity ← property "quantity" properties ≫= as_number;
      image ← property "image" properties ≫= as_string;
      attributes ← read_optional as_attributes (property "attributes" properties);
      maxQuantity ← read_optional as_number (property "maxQuantity" properties);
      Some (mkCartItem id productId variationId name slug price regularPrice
              quantity image attributes maxQuantity)
  | _ => None
  end.

(** [name: 'cart-storage'] and [version: 1]. *)
Definition storageName : string := "cart-storage".
Definition storageVersion : Z := 1.

(** The object [partialize] returns, [{ items: state.items }]. *)
Record Persisted : Type := mkPersisted {
  persisted_items : list CartItem;
}.

Definition partialize (state : CartState) : Persisted :=
  {| persisted_items := items state |}.

Definition Persisted_toJSON (p : Persisted) : JSON :=
  JObject [("items", JArray (CartItem_toJSON <$> persisted_items p))].

(** What is written to the slot after a change of state. *)
Definition serialize (state : CartState) : JSON :=
  JObject [("state", Persisted_toJSON (partialize state));
           ("version", JNumber storageVersion)].

(** What is read back from the slot: the persisted state when the
    stored version is the store's, nothing otherwise (the store has no
    [migrate]). *)
Definition deserialize (stored : JSON) : option Persisted :=
  match stored with
  | JObject properties =>
      version ← property "version" properties ≫= as_number;
      if version =? storageVersion then
        match property "state" properties with
        | Some (JObject state) =>
            match property "items" state with
            | Some (JArray elements) => mkPersisted <$> mapM CartItem_fromJSON elements
            | _ => None
            end
        | _ => None
        end
      else None
  | _ => None
  end.

(** A line that [JSON.stringify] writes so that it can be read back: its
    price and its regular price, when it has one, are ordinary. *)
Definition storable (item : CartItem) : Prop :=
  ordinary (price item) ∧ ∀ r, regularPrice item = Some r → ordinary r.

(** A string without a hyphen, as the digits [String] writes for
    a natural number are. *)
Fixpoint hyphen_free (s : string) : bool :=
  match s with
  | EmptyString => true
  | String c rest => negb (Ascii.eqb c "-"%char) && hyphen_free rest
  end.

(** What follows the product id in an id: nothing, or a hyphen and
    more. *)
Definition hyphen_led (s : string) : Prop :=
  s = "" ∨ ∃ rest, s = String "-"%char rest.

(** ** The authentication store

    The first module of [src/stores/auth-store.ts]: [useAuthStore], its
    three actions and the snapshot it persists. *)

Module Auth.

(** [interface User]. *)
Record User : Type := mkUser {
  id : Z;
  email : string;
  displayName : string;
  firstName : option string;
  lastName : option string;
}.

(** [interface AuthState]; [null] is [None]. *)
Record AuthState : Type := mkAuthState {
  user : option User;
  token : option string;
  isAuthenticated : bool;
  isLoading : bool;
}.

Definition initialState : AuthState :=
  {| user := None; token := None; isAuthenticated := false; isLoading := false |}.

Definition setUser (u : User) (t : string) (state : AuthState) : AuthState :=
  {| user := Some u; token := Some t; isAuthenticated := true; isLoading := false |}.

Definition logout (state : AuthState) : AuthState :=
  {| user := None; token := None; isAuthenticated := false; isLoading := false |}.

Definition setLoading (loading : bool) (state : AuthState) : AuthState :=
  {| user := user state; token := token state;
     isAuthenticated := isAuthenticated state; isLoading := loading |}.

(** The object [partialize] returns: [user], [token] and
    [isAuthenticated], without [isLoading]. *)
Record Persisted : Type := mkPersisted {
  persisted_user : option User;
  persisted_token : option string;
  persisted_isAuthenticated : bool;
}.

Definition partialize (state : AuthState) : Persisted :=
  {| persisted_user := user state;
     persisted_token := token state;
     persisted_isAuthenticated := isAuthenticated state |}.

(** The selector hooks. *)
Definition useUser (state : AuthState) : option User := user state.
Definition useIsAuthenticated (state : AuthState) : bool := isAuthenticated state.
Definition useAuthToken (state : AuthState) : option string := token state.

Inductive Action : Type :=
| SetUser (u : User) (t : string)
| Logout
| SetLoading (loading : bool).

Definition dispatch (state : AuthState) (a : Action) : AuthState :=
  match a with
  | SetUser u t => setUser u t state
  | Logout => logout state
  | SetLoading loading => setLoading loading state
  end.

Definition run (actions : list Action) (state : AuthState) : AuthState :=
  fold_left dispatch actions state.

End Auth.

(** ** The pages that drive the cart *)

(** [a || b] on optional numbers: [a] when it is truthy, [b] otherwise. *)
Definition or_else (a b : option Z) : option Z := if truthy a then a else b.

(** The quantity selector of the product page
    ([components/product/product-info.tsx]): the handlers of its two
    buttons, the rule that greys out the second, and the selection it
    starts from. [stockQuantity] is [number | null]. *)
Definition decrementQuantity (q : Z) : Z := Z.max 1 (q - 1).

Definition incrementQuantity (stockQuantity : option Z) (q : Z) : Z :=
  if truthy stockQuantity then Z.min (default 0 stockQuantity) (q + 1) else q + 1.

Definition incrementDisabled (stockQuantity : option Z) (q : Z) : bool :=
  if truthy stockQuantity then default 0 stockQuantity <=? q else false.

Definition initialQuantity : Z := 1.

Inductive Press : Type :=
| Minus
| Plus.

Definition press (stockQuantity : option Z) (q : Z) (b : Press) : Z :=
  match b with
  | Minus => decrementQuantity q
  | Plus => incrementQuantity stockQuantity q
  end.

(** The selected quantity after a sequence of presses. The component
    keeps [quantity] across renders and computes [stockQuantity] anew at
    each of them, from the variation selected then: a press comes with
    the stock quantity in force when it is made. *)
Definition selectedQuantity (presses : list (option Z * Press)) : Z :=
  fold_left (λ q p, press (fst p) q (snd p)) presses initialQuantity.

(** The ceiling [handleAddToCart] passes on,
    [maxQuantity: stockQuantity || undefined]. *)
Definition maxQuantityOf (stockQuantity : option Z) : option Z :=
  or_else stockQuantity None.

(** The header shows the item count as a badge on the cart button,
    [itemCount > 0 && ...]. *)
Definition badgeShown (state : CartState) : bool := 0 <? useCartItemCount state.

(** The line items the checkout page sends with an order
    ([app/checkout/page.tsx]). *)
Module Checkout.
Record LineItem : Type := mkLineItem {
  product_id : Z;
  variation_id : Z;
  quantity : Z;
}.
End Checkout.

Definition lineItems (items : list CartItem) : list Checkout.LineItem :=
  (λ item,
    {| Checkout.product_id := productId item;
       Checkout.variation_id := default 0 (or_else (variationId item) (Some 0));
       Checkout.quantity := quantity item |}) <$> items.

(** The rule that greys out the increase button of a line in the cart
    drawer and on the cart page,
    [item.maxQuantity ? item.quantity >= item.maxQuantity : false]. *)
Definition increaseDisabled (item : CartItem) : bool :=
  if truthy (maxQuantity item) then default 0 (maxQuantity item) <=? quantity item
  else false.

(** A quantity is within a ceiling when the ceiling is absent, is [0],
    or is not exceeded. *)
Definition withinCeiling (q : Z) (maxQty : option Z) : Prop :=
  ∀ m, maxQty = Some m → m ≠ 0 → q ≤ m.

(** ** Sample line items *)

Definition shirt (q : Z) : Omit.CartItem :=
  {| Omit.productId := 10; Omit.variationId := None; Omit.name := "Shirt";
     Omit.slug := "shirt"; Omit.price := 25%float; Omit.regularPrice := None;
     Omit.quantity := q; Omit.image := "x"; Omit.attributes := None;
     Omit.maxQuantity := None |}.

(** A product whose price string is empty: [parseFloat("")] is [NaN]. *)
Definition unpriced (q : Z) : Omit.CartItem :=
  {| Omit.productId := 11; Omit.variationId := None; Omit.name := "Sample";
     Omit.slug := "sample"; Omit.price := nan; Omit.regularPrice := None;
     Omit.quantity := q; Omit.image := ""; Omit.attributes := None;
     Omit.maxQuantity := None |}.

(** The same product with the price string ["Infinity"]. *)
Definition boundless (q : Z) : Omit.CartItem :=
  {| Omit.productId := 11; Omit.variationId := None; Omit.name := "Sample";
     Omit.slug := "sample"; Omit.price := infinity; Omit.regularPrice := None;
     Omit.quantity := q; Omit.image := ""; Omit.attributes := None;
     Omit.maxQuantity := None |}.

Definition jeans (attrs : Attributes) (q : Z) (maxQty : option Z) : Omit.CartItem :=
  {| Omit.productId := 5; Omit.variationId := Some 99; Omit.name := "Jeans";
     Omit.slug := "jeans"; Omit.price := 40%float; Omit.regularPrice := None;
     Omit.quantity := q; Omit.image := "y"; Omit.attributes := Some attrs;
     Omit.maxQuantity := maxQty |}.

(** Membership in a list that is written out, by cases. *)
Ltac elem_of_cases :=
  repeat match goal with
    | H : _ ∈ _ :: _ |- _ => apply elem_of_cons in H as [->|H]
    | H : _ ∈ [] |- _ => by apply elem_of_nil in H
    end.

(** ** The reference algorithm for ids *)

(** The algorithm the specification gives for the id, step by step in
    its own words, with the order its sort step goes by left open: the
    product id; the variation id whenever one is present; and, for a
    non-empty attribute record, the [key:value] pairs, formed first and
    then sorted by key. *)
Definition deriveIdBy (compare : string → string → Z)
    (productId : Z) (variationId : option Z) (attributes : option Attributes)
    : string :=
  let id := String_of productId in
  let id :=
    match variationId with
    | Some v => id +:+ "-" +:+ String_of v
    | None => id
    end in
  match attributes with
  | Some ((_ :: _) as entries) =>
      let pairs := (λ e, (fst e, fst e +:+ ":" +:+ snd e)) <$> entries in
      let pairs := Array_sort (λ p1 p2, compare (fst p1) (fst p2)) pairs in
      id +:+ "-" +:+ join "-" (snd <$> pairs)
  | _ => id
  end.

(** The reference algorithm as the specification has it: the pairs
    sorted lexicographically by key, code unit by code unit. *)
Definition deriveId : Z → option Z → option Attributes → string :=
  deriveIdBy codeUnitCompare.

(** ** The store *)

(** The state the store is created with. *)
Definition initialState : CartState := {| items := []; isOpen := false |}.

Section Store.

(** [String.prototype.localeCompare], supplied by the platform. *)
Variable localeCompare : string → string → Z.

(** [Object.entries(attributes).sort(([a], [b]) => a.localeCompare(b))]. *)
Definition sort_entries (entries : Attributes) : Attributes :=
  Array_sort (λ e1 e2, localeCompare (fst e1) (fst e2)) entries.

Definition generateCartItemId
    (productId : Z) (variationId : option Z) (attributes : option Attributes)
    : string :=
  let id := String_of productId in
  let id :=
    if truthy variationId
    then id +:+ "-" +:+ String_of (default 0 variationId)
    else id in
  match attributes with
  | Some entries =>
      if (0 <? length (fst <$> entries))%nat then
        let attrString :=
          join "-" ((λ e, fst e +:+ ":" +:+ snd e) <$> sort_entries entries) in
        id +:+ "-" +:+ attrString
      else id
  | None => id
  end.

(** *** Actions *)

Definition addItem (item : Omit.CartItem) : CartState → CartState :=
  let newId :=
    generateCartItemId
      (Omit.productId item) (Omit.variationId item) (Omit.attributes item) in
  set (λ state,
    match list_find (λ i, id i = newId) (items state) with
    | Some (existingItemIndex, existingItem) =>
        let newQuantity := quantity existingItem + Omit.quantity item in
        let maxQty := maxQuantity existingItem in
        let finalQuantity :=
          if truthy maxQty then Z.min newQuantity (default 0 maxQty)
          else newQuantity in
        let updatedItems :=
          <[existingItemIndex := with_quantity existingItem finalQuantity]>
            (items state) in
        {| set_items := Some updatedItems; set_isOpen := Some true |}
    | None =>
        {| set_items := Some (items state ++ [with_id item newId]);
           set_isOpen := Some true |}
    end).

Definition removeItem (id' : string) : CartState → CartState :=
  set (λ state,
    {| set_items := Some (filter (λ item, id item ≠ id') (items state));
       set_isOpen := None |}).

Definition updateQuantity (id' : string) (quantity : Z) : CartState → CartState :=
  set (λ state,
    if quantity <=? 0 then
      {| set_items := Some (filter (λ item, id item ≠ id') (items state));
         set_isOpen := None |}
    else
      {| set_items :=
           Some ((λ item,
                   if decide (id item ≠ id') then item
                   else
                     let maxQty := maxQuantity item in
                     let finalQuantity :=
                       if truthy maxQty then Z.min quantity (default 0 maxQty)
                       else quantity in
                     with_quantity item finalQuantity) <$> items state);
         set_isOpen := None |}).

Definition clearCart : CartState → CartState :=
  set (λ _, {| set_items := Some []; set_isOpen := None |}).

Definition openCart : CartState → CartState :=
  set (λ _, {| set_items := None; set_isOpen := Some true |}).

Definition closeCart : CartState → CartState :=
  set (λ _, {| set_items := None; set_isOpen := Some false |}).

Definition toggleCart : CartState → CartState :=
  set (λ state, {| set_items := None; set_isOpen := Some (negb (isOpen state)) |}).

(** *** Runs of the store *)

Inductive Action : Type :=
| AddItem (item : Omit.CartItem)
| RemoveItem (id' : string)
| UpdateQuantity (id' : string) (quantity : Z)
| ClearCart
| OpenCart
| CloseCart
| ToggleCart.

Definition dispatch (state : CartState) (a : Action) : CartState :=
  match a with
  | AddItem item => addItem item state
  | RemoveItem id' => removeItem id' state
  | UpdateQuantity id' quantity => updateQuantity id' quantity state
  | ClearCart => clearCart state
  | OpenCart => openCart state
  | CloseCart => closeCart state
  | ToggleCart => toggleCart state
  end.

(** The state after a sequence of actions, oldest first. *)
Definition run (actions : list Action) (state : CartState) : CartState :=
  fold_left dispatch actions state.

(** The store object as [create] leaves it, with its accessors, and as
    the actions change it, each through [setState]. *)
Definition createStore : StoreObject :=
  {| fields := initialState;
     total_property := Getter;
     subtotal_property := Getter;
     itemCount_property := Getter;
     isEmpty_property := Getter |}.

Definition store_dispatch (o : StoreObject) (a : Action) : StoreObject :=
  Object_assign o (dispatch (fields o) a).

Definition store_run (actions : list Action) (o : StoreObject) : StoreObject :=
  fold_left store_dispatch actions o.

(** The id [addItem] derives for its argument. *)
Definition idOf (item : Omit.CartItem) : string :=
  generateCartItemId
    (Omit.productId item) (Omit.variationId item) (Omit.attributes item).

(** The quantity a line with ceiling [maxQty] ends up with when
    [requested] is asked for. *)
Definition clamp (maxQty : option Z) (requested : Z) : Z :=
  if truthy maxQty then Z.min requested (default 0 maxQty) else requested.

(** The handlers of the two quantity buttons of a line, in the cart
    drawer and on the cart page alike. *)
Definition onDecrease (item : CartItem) : CartState → CartState :=
  updateQuantity (id item) (quantity item - 1).

Definition onIncrease (item : CartItem) : CartState → CartState :=
  updateQuantity (id item) (quantity item + 1).

(** Actions that leave [items] alone. *)
Definition visibilityOnly (a : Action) : Prop :=
  match a with
  | OpenCart | CloseCart | ToggleCart => True
  | _ => False
  end.

Global Instance visibilityOnly_dec (a : Action) : Decision (visibilityOnly a).
Proof. destruct a; simpl; apply _. Defined.

(** An [addItem] that asks for no more than the ceiling it brings. *)
Definition requestsWithinCeiling (a : Action) : Prop :=
  match a with
  | AddItem item => withinCeiling (Omit.quantity item) (Omit.maxQuantity item)
  | _ => True
  end.

(** An [addItem] that asks for at least one unit and brings no negative
    ceiling. *)
Definition requestsAtLeastOne (a : Action) : Prop :=
  match a with
  | AddItem item =>
      1 ≤ Omit.quantity item ∧ ∀ m, Omit.maxQuantity item = Some m → 0 ≤ m
  | _ => True
  end.

(** ** Basic facts about the actions *)

Lemma find_id_None (x : string) (l : list CartItem) :
  list_find (λ i, id i = x) l = None ↔ x ∉ id <$> l.
Proof.
  rewrite list_find_None, Forall_forall, list_elem_of_fmap. split.
  - intros H (i & -> & Hi). by apply (H i).
  - intros H i Hi Heq. apply H. exists i. by split.
Qed.

Lemma find_id_Some (x : string) (l : list CartItem) :
  x ∈ id <$> l → ∃ k e, list_find (λ i, id i = x) l = Some (k, e).
Proof.
  intros Hin. destruct (list_find _ l) as [[k e]|] eqn:E; [by eauto|].
  by apply find_id_None in E.
Qed.

Lemma addItem_new (item : Omit.CartItem) (state : CartState) :
  idOf item ∉ id <$> items state →
  addItem item state =
    {| items := items state ++ [with_id item (idOf item)]; isOpen := true |}.
Proof.
  intros Hnew%find_id_None. unfold addItem, set, idOf in *.
  by rewrite Hnew.
Qed.

Lemma addItem_existing (item : Omit.CartItem) (state : CartState) k e :
  list_find (λ i, id i = idOf item) (items state) = Some (k, e) →
  addItem item state =
    {| items :=
         <[k := with_quantity e
                  (clamp (maxQuantity e) (quantity e + Omit.quantity item))]>
           (items state);
       isOpen := true |}.
Proof.
  intros Hfind. unfold addItem, set, idOf in *. by rewrite Hfind.
Qed.

Lemma find_id_last (l : list CartItem) (e : CartItem) :
  id e ∉ id <$> l →
  list_find (λ i, id i = id e) (l ++ [e]) = Some (length l, e).
Proof.
  intros Hnew%find_id_None. rewrite list_find_app_r by done.
  simpl. by rewrite decide_True.
Qed.

Lemma filter_id_absent (x : string) (l : list CartItem) :
  x ∉ id <$> l → filter (λ i, id i = x) l = [].
Proof.
  induction l as [|e l IH]; [done|]. rewrite fmap_cons, not_elem_of_cons.
  intros [Hne Hl]. rewrite filter_cons_False by congruence. auto.
Qed.

(** ** Merging on [addItem] *)

(** C1 (merge law). From a cart holding no line of the derived id, two
    calls of [addItem] whose arguments agree on [productId],
    [variationId] and [attributes] and carry no [maxQuantity] leave the
    earlier lines as they were, followed by a single line of that id
    whose quantity is the sum of the two requested quantities. *)
Theorem addItem_twice_merges (item1 item2 : Omit.CartItem) (state : CartState) :
  Omit.productId item2 = Omit.productId item1 →
  Omit.variationId item2 = Omit.variationId item1 →
  Omit.attributes item2 = Omit.attributes item1 →
  Omit.maxQuantity item1 = None →
  Omit.maxQuantity item2 = None →
  idOf item1 ∉ id <$> items state →
  let state' := addItem item2 (addItem item1 state) in
  items state' =
    items state ++
      [with_quantity (with_id item1 (idOf item1))
         (Omit.quantity item1 + Omit.quantity item2)] ∧
  ∃ line,
    filter (λ i, id i = idOf item1) (items state') = [line] ∧
    quantity line = Omit.quantity item1 + Omit.quantity item2.
Proof.
  intros Hp Hv Ha Hm1 Hm2 Hnew state'.
  assert (idOf item2 = idOf item1) as Hid.
  { unfold idOf. by rewrite Hp, Hv, Ha. }
  assert (items state' =
            items state ++
              [with_quantity (with_id item1 (idOf item1))
                 (Omit.quantity item1 + Omit.quantity item2)]) as Hitems.
  { subst state'. rewrite (addItem_new item1) by done.
    erewrite addItem_existing; last first.
    { rewrite Hid. simpl. by apply (find_id_last _ (with_id item1 (idOf item1))). }
    simpl. rewrite Hm1. unfold clamp. simpl.
    rewrite insert_app_r_alt by done. by rewrite Nat.sub_diag. }
  split; [done|].
  exists (with_quantity (with_id item1 (idOf item1))
            (Omit.quantity item1 + Omit.quantity item2)).
  split; [|done].
  rewrite Hitems, filter_app, filter_id_absent by done.
  by rewrite filter_cons_True, filter_nil.
Qed.

(** ** Sorting *)

Section Sorting.

Context {A : Type} (compareFn : A → A → Z).

Lemma sort_insert_perm (x : A) (l : list A) :
  sort_insert compareFn x l ≡ₚ x :: l.
Proof.
  induction l as [|y l IH]; simpl; [done|].
  destruct (compareFn x y <=? 0); [done|].
  rewrite IH. apply Permutation_swap.
Qed.

Lemma Array_sort_perm (l : list A) : Array_sort compareFn l ≡ₚ l.
Proof.
  induction l as [|x l IH]; simpl; [done|].
  by rewrite sort_insert_perm, IH.
Qed.

Hypothesis compareFn_total : ∀ a b, compareFn a b ≤ 0 ∨ compareFn b a ≤ 0.
Hypothesis compareFn_trans :
  ∀ a b c, compareFn a b ≤ 0 → compareFn b c ≤ 0 → compareFn a c ≤ 0.

Lemma sort_insert_sorted (x : A) (l : list A) :
  StronglySorted (λ a b, compareFn a b ≤ 0) l →
  StronglySorted (λ a b, compareFn a b ≤ 0) (sort_insert compareFn x l).
Proof.
  induction 1 as [|y l Hl IH Hy]; simpl.
  { repeat constructor. }
  destruct (Z.leb_spec (compareFn x y) 0) as [Hle|Hgt].
  - constructor; [by constructor|]. constructor; [done|].
    eapply Forall_impl; [exact Hy|]. intros z Hz. by eapply compareFn_trans.
  - constructor; [done|]. rewrite sort_insert_perm. constructor; [|done].
    destruct (compareFn_total y x); [done|lia].
Qed.

Lemma Array_sort_sorted (l : list A) :
  StronglySorted (λ a b, compareFn a b ≤ 0) (Array_sort compareFn l).
Proof.
  induction l as [|x l IH]; simpl; [constructor|].
  by apply sort_insert_sorted.
Qed.

(** The sorted array depends on the elements only, not on the order
    they came in, once the comparator ties no two of them. *)
Lemma Array_sort_order_independent (l1 l2 : list A) :
  (∀ a b, a ∈ l1 → b ∈ l1 → compareFn a b ≤ 0 → compareFn b a ≤ 0 → a = b) →
  l1 ≡ₚ l2 →
  Array_sort compareFn l1 = Array_sort compareFn l2.
Proof.
  intros Htie Hperm.
  apply (StronglySorted_unique_strong (λ a b, compareFn a b ≤ 0)).
  - intros a b Ha Hb. rewrite Array_sort_perm in Ha.
    rewrite Array_sort_perm, <-Hperm in Hb. by apply Htie.
  - apply Array_sort_sorted.
  - apply Array_sort_sorted.
  - by rewrite !Array_sort_perm.
Qed.

End Sorting.

Lemma entries_key_determines (entries : Attributes) (k v1 v2 : string) :
  NoDup (fst <$> entries) → (k, v1) ∈ entries → (k, v2) ∈ entries → v1 = v2.
Proof.
  induction entries as [|[k' v'] l IH]; [by intros _ ?%elem_of_nil|].
  rewrite fmap_cons, NoDup_cons. intros [Hk Hl] H1 H2.
  apply elem_of_cons in H1 as [H1|H1]; apply elem_of_cons in H2 as [H2|H2].
  - congruence.
  - inversion H1; subst. destruct Hk.
    apply list_elem_of_fmap. by exists (k', v2).
  - inversion H2; subst. destruct Hk.
    apply list_elem_of_fmap. by exists (k', v1).
  - by apply IH.
Qed.

(** ** Identity of a line *)

Lemma comparator_total (compare : string → string → Z) (a b : string) :
  ConsistentComparator compare → compare a b ≤ 0 ∨ compare b a ≤ 0.
Proof.
  intros [Hswap _]. destruct (Z.le_gt_cases (compare a b) 0) as [?|Hgt]; [by left|].
  right. pose proof (Hswap b a). lia.
Qed.

Lemma comparator_tie (compare : string → string → Z) (a b : string) :
  ConsistentComparator compare →
  compare a b ≤ 0 → compare b a ≤ 0 → compare a b = 0.
Proof.
  intros [Hswap _] Hab Hba.
  destruct (Z.lt_ge_cases (compare a b) 0) as [Hlt|?]; [|lia].
  apply Hswap in Hlt. lia.
Qed.

(** C2, as amended (identity is independent of attribute order, ties
    apart). For a [localeCompare] that is the total ordering the language
    requires, two attribute records holding the same key-to-value pairs,
    whatever the order their entries are enumerated in, give the same id
    for every [productId] and every optional [variationId], provided
    [localeCompare] returns [0] for no two distinct keys of the
    record. *)
Theorem generateCartItemId_order_independent
    (productId : Z) (variationId : option Z) (entries1 entries2 : Attributes) :
  ConsistentComparator localeCompare →
  (∀ k1 k2, k1 ∈ fst <$> entries1 → k2 ∈ fst <$> entries1 →
            localeCompare k1 k2 = 0 → k1 = k2) →
  NoDup (fst <$> entries1) →
  entries1 ≡ₚ entries2 →
  generateCartItemId productId variationId (Some entries1) =
  generateCartItemId productId variationId (Some entries2).
Proof.
  intros Hcmp Htie Hkeys Hperm. unfold generateCartItemId.
  rewrite !length_fmap, <-(Permutation_length Hperm).
  destruct (0 <? length entries1)%nat; [|done].
  do 4 f_equal. unfold sort_entries.
  apply Array_sort_order_independent; [| | |done].
  - intros a b. by apply comparator_total.
  - intros a b c. apply (comparator_trans _ Hcmp).
  - intros [k1 v1] [k2 v2] H1 H2 Hle Hge; simpl in *.
    assert (k1 = k2) as ->.
    { apply Htie.
      - apply list_elem_of_fmap. by exists (k1, v1).
      - apply list_elem_of_fmap. by exists (k2, v2).
      - by apply comparator_tie. }
    f_equal. by eapply entries_key_determines.
Qed.

Lemma sort_insert_fmap {A B} (f : A → B) (cmpA : A → A → Z) (cmpB : B → B → Z)
    (x : A) (l : list A) :
  (∀ a b, cmpB (f a) (f b) = cmpA a b) →
  sort_insert cmpB (f x) (f <$> l) = f <$> sort_insert cmpA x l.
Proof.
  intros Hcmp. induction l as [|y l IH]; [done|].
  rewrite fmap_cons. cbn [sort_insert]. rewrite Hcmp.
  destruct (cmpA x y <=? 0); [done|]. rewrite fmap_cons. by f_equal.
Qed.

Lemma Array_sort_fmap {A B} (f : A → B) (cmpA : A → A → Z) (cmpB : B → B → Z)
    (l : list A) :
  (∀ a b, cmpB (f a) (f b) = cmpA a b) →
  Array_sort cmpB (f <$> l) = f <$> Array_sort cmpA l.
Proof.
  intros Hcmp. induction l as [|x l IH]; [done|].
  rewrite fmap_cons. unfold Array_sort in *. simpl.
  rewrite IH. by apply sort_insert_fmap.
Qed.

Lemma sort_insert_agree {A} (c1 c2 : A → A → Z) (x : A) (l : list A) :
  (∀ y, y ∈ l → (c1 x y ≤ 0 ↔ c2 x y ≤ 0)) →
  sort_insert c1 x l = sort_insert c2 x l.
Proof.
  induction l as [|y l IH]; intros Hagree; [done|]. simpl.
  assert ((c1 x y <=? 0) = (c2 x y <=? 0)) as ->.
  { apply eq_bool_prop_intro. rewrite !Is_true_true, !Z.leb_le.
    apply Hagree. by left. }
  destruct (c2 x y <=? 0); [done|]. f_equal. apply IH.
  intros z Hz. apply Hagree. by right.
Qed.

(** Two comparators that put every two elements of an array the same
    way round sort it the same. *)
Lemma Array_sort_agree {A} (c1 c2 : A → A → Z) (l : list A) :
  (∀ x y, x ∈ l → y ∈ l → (c1 x y ≤ 0 ↔ c2 x y ≤ 0)) →
  Array_sort c1 l = Array_sort c2 l.
Proof.
  induction l as [|x l IH]; intros Hagree; [done|].
  unfold Array_sort in *. simpl. rewrite IH.
  - apply sort_insert_agree. intros y Hy. apply Hagree; [by left|right].
    by rewrite <-(Array_sort_perm c2 l).
  - intros y z Hy Hz. apply Hagree; by right.
Qed.

Lemma generateCartItemId_deriveIdBy
    (productId : Z) (variationId : option Z) (attributes : option Attributes) :
  generateCartItemId productId variationId attributes =
  deriveIdBy localeCompare productId
    (match variationId with Some 0 => None | _ => variationId end)
    attributes.
Proof.
  unfold generateCartItemId, deriveIdBy.
  assert (∀ entries : Attributes,
    (λ e, fst e +:+ ":" +:+ snd e) <$> sort_entries entries =
    snd <$> Array_sort (λ p1 p2, localeCompare (fst p1) (fst p2))
              ((λ e, (fst e, fst e +:+ ":" +:+ snd e)) <$> entries))
    as Hsort.
  { intros entries. unfold sort_entries.
    rewrite (Array_sort_fmap _ (λ e1 e2, localeCompare (fst e1) (fst e2))) by done.
    by rewrite <-list_fmap_compose. }
  destruct attributes as [entries|]; [rewrite Hsort|];
    destruct variationId as [[|v|v]|]; try destruct entries; reflexivity.
Qed.

(** C3, as amended (the id against the reference algorithm). The id is
    what the reference algorithm gives with two changes: a
    [variationId] of [0] is read as no [variationId], and the sort step
    goes by [localeCompare] where the reference has the lexicographic
    order. For a [localeCompare] that is the total ordering the language
    requires, that sort step does sort: the pairs come out rearranged
    and ascending by key under [localeCompare]. And the id is the one
    of the reference algorithm itself, lexicographic sort and all,
    whenever [localeCompare] puts every two keys of the record the way
    round the lexicographic order does. *)
Theorem generateCartItemId_refines_deriveId
    (productId : Z) (variationId : option Z) (attributes : option Attributes) :
  ConsistentComparator localeCompare →
  let present := match variationId with Some 0 => None | _ => variationId end in
  let entries := default [] attributes in
  generateCartItemId productId variationId attributes =
    deriveIdBy localeCompare productId present attributes ∧
  sort_entries entries ≡ₚ entries ∧
  StronglySorted (λ e1 e2, localeCompare (fst e1) (fst e2) ≤ 0) (sort_entries entries) ∧
  ((∀ k1 k2, k1 ∈ fst <$> entries → k2 ∈ fst <$> entries →
             (localeCompare k1 k2 ≤ 0 ↔ codeUnitCompare k1 k2 ≤ 0)) →
   generateCartItemId productId variationId attributes =
     deriveId productId present attributes).
Proof.
  intros Hcmp present entries. split_and!.
  - apply generateCartItemId_deriveIdBy.
  - apply Array_sort_perm.
  - apply Array_sort_sorted.
    + intros a b. by apply comparator_total.
    + intros a b c. apply (comparator_trans _ Hcmp).
  - intros Hagree. rewrite generateCartItemId_deriveIdBy.
    fold present. unfold deriveId, deriveIdBy.
    destruct attributes as [[|e l]|]; [done| |done].
    do 2 f_equal. f_equal. f_equal. apply Array_sort_agree.
    intros [k1 s1] [k2 s2] H1 H2. simpl.
    apply Hagree.
    + apply list_elem_of_fmap in H1 as (x & [= -> _] & Hx).
      apply list_elem_of_fmap. by exists x.
    + apply list_elem_of_fmap in H2 as (x & [= -> _] & Hx).
      apply list_elem_of_fmap. by exists x.
Qed.

Lemma find_id_lookup (x : string) (l : list CartItem) k e :
  list_find (λ i, id i = x) l = Some (k, e) → l !! k = Some e ∧ id e = x.
Proof. rewrite list_find_Some. intros (Hk & Hid & _). by split. Qed.

(** C4, as amended (clamp law). For every ceiling [m] other than [0]:
    when the derived id of the argument is that of a line already in
    the cart whose [maxQuantity] is [m], and the quantity of that line
    plus the quantity requested strictly exceeds [m], [addItem] leaves
    the line with quantity exactly [m]. *)
Theorem addItem_clamps_to_ceiling
    (item : Omit.CartItem) (state : CartState) (k : nat) (e : CartItem) (m : Z) :
  list_find (λ i, id i = idOf item) (items state) = Some (k, e) →
  maxQuantity e = Some m →
  m ≠ 0 →
  quantity e + Omit.quantity item > m →
  items (addItem item state) !! k = Some (with_quantity e m).
Proof.
  intros Hfind Hmax Hm Hover.
  rewrite (addItem_existing _ _ _ _ Hfind). simpl.
  apply find_id_lookup in Hfind as [Hk _].
  rewrite list_lookup_insert_eq by by eapply lookup_lt_Some.
  rewrite Hmax. unfold clamp. simpl.
  destruct (Z.eqb_spec m 0) as [|_]; [done|]. simpl.
  by rewrite Z.min_r by lia.
Qed.

(** C10 (frame of a merge). When the derived id of the argument is that
    of a line of the cart, [addItem] rewrites the first such line in
    place: the line keeps its position and every field but [quantity]
    ([id], [productId], [variationId], [name], [slug], [price],
    [regularPrice], [image], [attributes], [maxQuantity]), whatever the
    argument carries in them; the cart keeps its length and every other
    line is unchanged. *)
Theorem addItem_merge_frame (item : Omit.CartItem) (state : CartState) :
  idOf item ∈ id <$> items state →
  ∃ (k : nat) (e e' : CartItem),
    list_find (λ i, id i = idOf item) (items state) = Some (k, e) ∧
    items (addItem item state) = <[k := e']> (items state) ∧
    items (addItem item state) !! k = Some e' ∧
    e' = with_quantity e (quantity e') ∧
    (id e', productId e', variationId e', name e', slug e') =
      (id e, productId e, variationId e, name e, slug e) ∧
    (price e', regularPrice e', image e', attributes e', maxQuantity e') =
      (price e, regularPrice e, image e, attributes e, maxQuantity e) ∧
    length (items (addItem item state)) = length (items state) ∧
    ∀ j, j ≠ k → items (addItem item state) !! j = items state !! j.
Proof.
  intros (k & e & Hfind)%find_id_Some.
  exists k, e,
    (with_quantity e (clamp (maxQuantity e) (quantity e + Omit.quantity item))).
  rewrite (addItem_existing _ _ _ _ Hfind). simpl.
  pose proof (find_id_lookup _ _ _ _ Hfind) as [Hk _].
  split_and!; try done.
  - apply list_lookup_insert_eq. by eapply lookup_lt_Some.
  - apply length_insert.
  - intros j Hj. by apply list_lookup_insert_ne.
Qed.

(** ** Ids of the lines *)

Lemma ids_filter_NoDup (P : CartItem → Prop) `{!∀ x, Decision (P x)}
    (l : list CartItem) :
  NoDup (id <$> l) → NoDup (id <$> filter P l).
Proof.
  intros Hl. eapply sublist_NoDup; [exact Hl|].
  apply fmap_sublist, sublist_filter.
Qed.

Lemma ids_addItem (item : Omit.CartItem) (state : CartState) :
  id <$> items (addItem item state) =
    if decide (idOf item ∈ id <$> items state) then id <$> items state
    else (id <$> items state) ++ [idOf item].
Proof.
  case_decide as Hin.
  - apply find_id_Some in Hin as (k & e & Hfind).
    rewrite (addItem_existing _ _ _ _ Hfind). simpl.
    apply find_id_lookup in Hfind as [Hk _].
    rewrite list_fmap_insert. simpl. apply list_insert_id.
    by rewrite list_lookup_fmap, Hk.
  - rewrite addItem_new by done. simpl. by rewrite fmap_app.
Qed.

Lemma ids_updateQuantity_positive (id' : string) (q : Z) (state : CartState) :
  0 < q → id <$> items (updateQuantity id' q state) = id <$> items state.
Proof.
  intros Hq. unfold updateQuantity, set.
  destruct (Z.leb_spec q 0) as [|_]; [lia|]. simpl.
  rewrite <-list_fmap_compose. apply list_fmap_ext.
  intros j x _. simpl. by case_decide.
Qed.

Lemma dispatch_ids_NoDup (state : CartState) (a : Action) :
  NoDup (id <$> items state) → NoDup (id <$> items (dispatch state a)).
Proof.
  intros Hnd. destruct a as [item|id'|id' q| | | |]; cbn [dispatch]; try done.
  - rewrite ids_addItem. case_decide as Hin; [done|].
    apply NoDup_app. split_and!; [done| |apply NoDup_singleton].
    intros x Hx ->%list_elem_of_singleton. done.
  - unfold removeItem, set. simpl. by apply ids_filter_NoDup.
  - destruct (Z.leb_spec q 0) as [Hq|Hq].
    + unfold updateQuantity, set.
      destruct (Z.leb_spec q 0) as [_|]; [|lia]. simpl.
      by apply ids_filter_NoDup.
    + by rewrite ids_updateQuantity_positive.
  - constructor.
Qed.

Lemma run_snoc (actions : list Action) (a : Action) (state : CartState) :
  run (actions ++ [a]) state = dispatch (run actions state) a.
Proof. unfold run. by rewrite fold_left_app. Qed.

Lemma run_ids_NoDup (actions : list Action) :
  NoDup (id <$> items (run actions initialState)).
Proof.
  induction actions as [|a actions IH] using rev_ind; [constructor|].
  rewrite run_snoc. by apply dispatch_ids_NoDup.
Qed.

(** C6 (ids are unique). In every state the store reaches from the
    empty cart, no two lines share an id; and [addItem] there, given an
    argument whose derived id is that of a line, rewrites the quantity
    of that line (the sum of its quantity and the one requested, under
    the line's ceiling) and appends nothing, while an id not yet present
    is appended as one new line. *)
Theorem ids_unique (actions : list Action) (item : Omit.CartItem) :
  let state := run actions initialState in
  NoDup (id <$> items state) ∧
  NoDup (id <$> items (addItem item state)) ∧
  match list_find (λ i, id i = idOf item) (items state) with
  | Some (k, e) =>
      items (addItem item state) =
        <[k := with_quantity e
                 (clamp (maxQuantity e) (quantity e + Omit.quantity item))]>
          (items state) ∧
      length (items (addItem item state)) = length (items state)
  | None =>
      items (addItem item state) = items state ++ [with_id item (idOf item)]
  end.
Proof.
  intros state. split_and!.
  - apply run_ids_NoDup.
  - apply (dispatch_ids_NoDup state (AddItem item)), run_ids_NoDup.
  - destruct (list_find _ _) as [[k e]|] eqn:Hfind.
    + rewrite (addItem_existing _ _ _ _ Hfind). simpl.
      split; [done|]. apply length_insert.
    + apply find_id_None in Hfind. by rewrite addItem_new.
Qed.

(** ** Removal *)

Lemma filter_other_ids_absent (x : string) (l : list CartItem) :
  x ∉ id <$> l → filter (λ item, id item ≠ x) l = l.
Proof.
  induction l as [|e l IH]; [done|]. rewrite fmap_cons, not_elem_of_cons.
  intros [Hne Hl]. rewrite filter_cons_True by congruence. by rewrite IH.
Qed.

Lemma removeItem_absent (id' : string) (state : CartState) :
  id' ∉ id <$> items state → removeItem id' state = state.
Proof.
  intros Habsent. unfold removeItem, set. simpl.
  rewrite filter_other_ids_absent by done. by destruct state.
Qed.

Lemma updateQuantity_absent (id' : string) (q : Z) (state : CartState) :
  id' ∉ id <$> items state → updateQuantity id' q state = state.
Proof.
  intros Habsent. unfold updateQuantity, set.
  destruct (q <=? 0); simpl.
  - rewrite filter_other_ids_absent by done. by destruct state.
  - destruct state as [l o]; simpl in *. f_equal.
    induction l as [|e l IH]; [done|].
    rewrite fmap_cons in Habsent. apply not_elem_of_cons in Habsent as [Hne Hl].
    rewrite fmap_cons, IH by done. rewrite decide_True by congruence. done.
Qed.

(** C7 (a non-positive update is a removal). For every state, id and
    quantity [q ≤ 0], [updateQuantity id q] gives the very state
    [removeItem id] gives; and when no line has that id, both leave the
    state as it is. *)
Theorem updateQuantity_nonpositive_removes
    (id' : string) (q : Z) (state : CartState) :
  q ≤ 0 →
  updateQuantity id' q state = removeItem id' state ∧
  (id' ∉ id <$> items state →
   removeItem id' state = state ∧ updateQuantity id' q state = state).
Proof.
  intros Hq. split.
  - unfold updateQuantity, removeItem, set.
    by destruct (Z.leb_spec q 0) as [_|]; [|lia].
  - intros Habsent. split.
    + by apply removeItem_absent.
    + by apply updateQuantity_absent.
Qed.

(** ** Stock ceiling on the merging paths *)

Lemma clamp_le_ceiling (m requested : Z) :
  m ≠ 0 → clamp (Some m) requested ≤ m.
Proof.
  intros Hm. unfold clamp. simpl.
  destruct (Z.eqb_spec m 0) as [|_]; [done|]. simpl. lia.
Qed.

Lemma updateQuantity_within_ceiling
    (id' : string) (q m : Z) (state : CartState) (e : CartItem) :
  0 < q → m ≠ 0 →
  e ∈ items (updateQuantity id' q state) →
  id e = id' → maxQuantity e = Some m → quantity e ≤ m.
Proof.
  intros Hq Hm He Hid Hmax. unfold updateQuantity, set in He.
  destruct (Z.leb_spec q 0) as [|_]; [lia|]. simpl in He.
  apply list_elem_of_fmap in He as (x & -> & _).
  case_decide as Hx; [done|]. simpl in *.
  rewrite Hmax. by apply clamp_le_ceiling.
Qed.

(** ** Totals *)

Lemma itemCount_from (l : list CartItem) (acc : Totals) :
  itemCount
    (fold_left
       (λ acc item,
         {| total := (total acc + price item * Number_of (quantity item))%float;
            subtotal := (subtotal acc + price item * Number_of (quantity item))%float;
            itemCount := itemCount acc + quantity item |})
       l acc) =
  itemCount acc + sumZ (quantity <$> l).
Proof.
  revert acc. induction l as [|e l IH]; intros acc.
  - unfold sumZ. simpl. lia.
  - cbn [fold_left]. rewrite IH, fmap_cons. unfold sumZ.
    cbn [foldr itemCount]. lia.
Qed.

Lemma useCartItemCount_sum (state : CartState) :
  useCartItemCount state = sumZ (quantity <$> items state).
Proof. unfold useCartItemCount, calculateTotals. by rewrite itemCount_from. Qed.

Lemma store_run_snoc (actions : list Action) (a : Action) (o : StoreObject) :
  store_run (actions ++ [a]) o = store_dispatch (store_run actions o) a.
Proof. unfold store_run. by rewrite fold_left_app. Qed.

Lemma store_run_fields (actions : list Action) (o : StoreObject) :
  fields (store_run actions o) = run actions (fields o).
Proof.
  induction actions as [|a actions IH] using rev_ind; [done|].
  by rewrite store_run_snoc, run_snoc, <-IH.
Qed.

(** The computed properties of the store object stop following the
    lines at the first [setState]: from then on they read what they
    read when the store was created. *)
Lemma computed_frozen_after_first_set (a : Action) (actions : list Action) :
  let o := store_run (a :: actions) createStore in
  read_total o = read_total createStore ∧
  read_subtotal o = read_subtotal createStore ∧
  read_itemCount o = read_itemCount createStore ∧
  read_isEmpty o = read_isEmpty createStore ∧
  fields o = run (a :: actions) initialState.
Proof.
  induction actions as [|b actions IH] using rev_ind.
  - by cbv zeta.
  - cbv zeta in *. rewrite app_comm_cons, store_run_snoc.
    destruct IH as (Ht & Hs & Hc & He & Hf). split_and!; try done.
    change (fields (store_run (a :: actions) createStore)) with
      (fields (store_run (a :: actions) createStore)) in Hf.
    rewrite run_snoc, <-Hf. done.
Qed.

(** C8 (the computed totals against the lines). On the store as it is
    created the four computed properties read the empty cart. After any
    sequence of one or more actions the selector hooks still compute
    the totals from the current lines, [useCartItemCount] being the sum
    of their quantities, but [total], [subtotal], [itemCount] and
    [isEmpty] of the store object read [0], [0], [0] and [true] whatever
    the lines are: they are not recalculated on access. *)
Theorem computed_properties_frozen (a : Action) (actions : list Action) :
  let o := store_run (a :: actions) createStore in
  (read_total createStore = 0%float ∧ read_itemCount createStore = 0) ∧
  fields o = run (a :: actions) initialState ∧
  useCartTotal (fields o) = total (calculateTotals (items (fields o))) ∧
  useCartItemCount (fields o) = sumZ (quantity <$> items (fields o)) ∧
  read_total o = 0%float ∧
  read_subtotal o = 0%float ∧
  read_itemCount o = 0 ∧
  read_isEmpty o = true.
Proof.
  intros o.
  destruct (computed_frozen_after_first_set a actions) as (Ht & Hs & Hc & He & Hf).
  split_and!; try done; try (by subst o; rewrite ?Ht, ?Hs, ?Hc, ?He).
  apply useCartItemCount_sum.
Qed.

(** ** What every line of a reachable cart satisfies *)

(** A property of lines is kept by an action when a new line has it,
    and a line that has it keeps it when its quantity is rewritten by a
    merge or by a positive update. *)
Lemma dispatch_lines_invariant (P : CartItem → Prop) (state : CartState) (a : Action) :
  (∀ item, a = AddItem item → P (with_id item (idOf item))) →
  (∀ item e, a = AddItem item → P e →
     P (with_quantity e (clamp (maxQuantity e) (quantity e + Omit.quantity item)))) →
  (∀ e q, 0 < q → P e → P (with_quantity e (clamp (maxQuantity e) q))) →
  Forall P (items state) → Forall P (items (dispatch state a)).
Proof.
  intros Hnew Hmerge Hupdate Hall.
  destruct a as [item|id'|id' q| | | |]; cbn [dispatch]; try done.
  - destruct (list_find (λ i, id i = idOf item) (items state)) as [[k e]|] eqn:Hfind.
    + rewrite (addItem_existing _ _ _ _ Hfind). simpl.
      apply Forall_insert; [done|]. apply Hmerge; [done|].
      apply find_id_lookup in Hfind as [Hk _].
      eapply Forall_forall; [exact Hall|]. by eapply list_elem_of_lookup_2.
    + apply find_id_None in Hfind. rewrite addItem_new by done. simpl.
      apply Forall_app_2; [done|]. apply Forall_singleton. by apply Hnew.
  - unfold removeItem, set. simpl. apply Forall_forall.
    intros e [_ He]%list_elem_of_filter. by eapply Forall_forall.
  - unfold updateQuantity, set. destruct (Z.leb_spec q 0) as [Hq|Hq]; simpl.
    + apply Forall_forall. intros e [_ He]%list_elem_of_filter.
      by eapply Forall_forall.
    + apply Forall_fmap. eapply Forall_impl; [exact Hall|].
      intros e He. simpl. case_decide; [done|]. by apply Hupdate.
Qed.

Lemma clamp_withinCeiling (maxQty : option Z) (requested : Z) :
  withinCeiling (clamp maxQty requested) maxQty.
Proof. intros m -> Hm. by apply clamp_le_ceiling. Qed.

(** X1 (the stock ceiling holds when first adds respect it). In every
    state reached from the empty cart by actions whose [addItem]s each
    ask for no more than the ceiling they bring, every line is within
    the ceiling stored on it. *)
Theorem ceiling_kept_by_bounded_adds (actions : list Action) :
  Forall requestsWithinCeiling actions →
  Forall (λ e, withinCeiling (quantity e) (maxQuantity e))
    (items (run actions initialState)).
Proof.
  induction actions as [|a actions IH] using rev_ind; intros Hreq.
  { constructor. }
  apply Forall_app in Hreq as [Hreq Ha]. apply Forall_inv in Ha.
  rewrite run_snoc. apply dispatch_lines_invariant; [| | |by apply IH].
  - intros item ->. exact Ha.
  - intros item e _ _. apply clamp_withinCeiling.
  - intros e q _ _. apply clamp_withinCeiling.
Qed.

Lemma clamp_at_least_one (maxQty : option Z) (requested : Z) :
  1 ≤ requested → (∀ m, maxQty = Some m → 0 ≤ m) → 1 ≤ clamp maxQty requested.
Proof.
  intros Hreq Hmax. unfold clamp. destruct maxQty as [m|]; simpl; [|done].
  destruct (Z.eqb_spec m 0) as [|Hm]; simpl; [done|].
  specialize (Hmax m eq_refl). lia.
Qed.

Lemma run_lines_at_least_one (actions : list Action) :
  Forall requestsAtLeastOne actions →
  Forall (λ e, 1 ≤ quantity e ∧ ∀ m, maxQuantity e = Some m → 0 ≤ m)
    (items (run actions initialState)).
Proof.
  induction actions as [|a actions IH] using rev_ind; intros Hreq.
  { constructor. }
  apply Forall_app in Hreq as [Hreq Ha]. apply Forall_inv in Ha.
  rewrite run_snoc. apply dispatch_lines_invariant; [| | |by apply IH].
  - intros item ->. exact Ha.
  - intros item e -> [Hq Hmax]. destruct Ha as [Hitem _]. split; [|done].
    simpl. apply clamp_at_least_one; [lia|done].
  - intros e q Hq [_ Hmax]. split; [|done].
    simpl. apply clamp_at_least_one; [lia|done].
Qed.

(** X2 (quantities stay positive). In every state reached from the empty
    cart by actions whose [addItem]s each ask for at least one unit and
    bring no negative ceiling, every line has a quantity of at least
    one: an update to zero or below removes the line instead. *)
Theorem quantities_stay_positive (actions : list Action) :
  Forall requestsAtLeastOne actions →
  Forall (λ e, 1 ≤ quantity e) (items (run actions initialState)).
Proof.
  intros Hreq. eapply Forall_impl; [by apply run_lines_at_least_one|].
  by intros e [He _].
Qed.

Lemma sumZ_at_least_length (l : list Z) :
  Forall (λ q, 1 ≤ q) l → Z.of_nat (length l) ≤ sumZ l.
Proof.
  induction 1 as [|q l Hq _ IH]; [done|].
  unfold sumZ in *. simpl length. simpl foldr. lia.
Qed.

(** X19 (the badge and the empty page agree). In every state reached
    from the empty cart by actions whose [addItem]s each ask for at
    least one unit and bring no negative ceiling, the item count is at
    least the number of lines, so the header shows its badge exactly
    when the cart pages do not show the empty cart. *)
Theorem badge_agrees_with_empty_cart (actions : list Action) :
  Forall requestsAtLeastOne actions →
  let state := run actions initialState in
  Z.of_nat (length (useCartItems state)) ≤ useCartItemCount state ∧
  badgeShown state = negb (useCartIsEmpty state).
Proof.
  intros Hreq state.
  assert (Z.of_nat (length (items state)) ≤ useCartItemCount state) as Hlen.
  { rewrite useCartItemCount_sum.
    rewrite <-(length_fmap quantity). apply sumZ_at_least_length, Forall_fmap.
    eapply Forall_impl; [by apply run_lines_at_least_one|]. by intros e [He _]. }
  split; [done|]. unfold badgeShown, useCartIsEmpty.
  destruct (items state) as [|e l] eqn:Hitems.
  - unfold useCartItemCount. by rewrite Hitems.
  - simpl length in *. apply Z.ltb_lt. lia.
Qed.

(** ** How the actions move the totals *)

Lemma updateQuantity_positive_items (id' : string) (q : Z) (state : CartState) :
  0 < q →
  items (updateQuantity id' q state) =
    (λ item, if decide (id item ≠ id') then item
             else with_quantity item (clamp (maxQuantity item) q)) <$> items state.
Proof.
  intros Hq. unfold updateQuantity, set.
  by destruct (Z.leb_spec q 0) as [|_]; [lia|].
Qed.

Lemma updateQuantity_nonpositive_items (id' : string) (q : Z) (state : CartState) :
  q ≤ 0 →
  items (updateQuantity id' q state) = filter (λ item, id item ≠ id') (items state).
Proof.
  intros Hq. unfold updateQuantity, set.
  by destruct (Z.leb_spec q 0) as [_|]; [|lia].
Qed.

Lemma sumZ_cons (x : Z) (l : list Z) : sumZ (x :: l) = x + sumZ l.
Proof. done. Qed.

Lemma sumZ_app (l1 l2 : list Z) : sumZ (l1 ++ l2) = sumZ l1 + sumZ l2.
Proof.
  induction l1 as [|x l1 IH]; [done|].
  rewrite <-app_comm_cons, !sumZ_cons, IH. lia.
Qed.

Lemma sumZ_insert (f : CartItem → Z) (l : list CartItem) (k : nat) (old x : CartItem) :
  l !! k = Some old →
  sumZ (f <$> <[k := x]> l) = sumZ (f <$> l) - f old + f x.
Proof.
  revert k. induction l as [|y l IH]; intros [|k] Hk; try done.
  - injection Hk as ->.
    change (<[0%nat := x]> (old :: l)) with (x :: l).
    rewrite !fmap_cons, !sumZ_cons. lia.
  - change (<[S k := x]> (y :: l)) with (y :: <[k := x]> l).
    rewrite !fmap_cons, !sumZ_cons, (IH k) by done. lia.
Qed.

Lemma sumZ_remove (f : CartItem → Z) (l : list CartItem) (e : CartItem) :
  NoDup (id <$> l) → e ∈ l →
  sumZ (f <$> filter (λ i, id i ≠ id e) l) = sumZ (f <$> l) - f e.
Proof.
  induction l as [|y l IH]; [by intros _ ?%elem_of_nil|].
  rewrite fmap_cons, NoDup_cons. intros [Hy Hl] [->|He]%elem_of_cons.
  - rewrite filter_cons_False by (intros H; by apply H).
    rewrite filter_other_ids_absent by done. rewrite fmap_cons, sumZ_cons. lia.
  - assert (id y ≠ id e) as Hne.
    { intros Heq. apply Hy. rewrite Heq. apply list_elem_of_fmap. by exists e. }
    rewrite filter_cons_True by done.
    rewrite !fmap_cons, !sumZ_cons, IH by done. lia.
Qed.

Lemma sumZ_rewrite_line (f : CartItem → Z) (h : CartItem → CartItem)
    (l : list CartItem) (e : CartItem) :
  NoDup (id <$> l) → e ∈ l →
  sumZ (f <$> ((λ i, if decide (id i ≠ id e) then i else h i) <$> l)) =
    sumZ (f <$> l) - f e + f (h e).
Proof.
  induction l as [|y l IH]; [by intros _ ?%elem_of_nil|].
  rewrite fmap_cons, NoDup_cons. intros [Hy Hl] [->|He]%elem_of_cons.
  - rewrite !fmap_cons, !sumZ_cons. rewrite decide_False by (intros H; by apply H).
    assert ((λ i, if decide (id i ≠ id y) then i else h i) <$> l = l) as ->.
    { clear IH Hl. induction l as [|z l IH]; [done|].
      rewrite fmap_cons in Hy. apply not_elem_of_cons in Hy as [Hz Hl].
      rewrite fmap_cons, IH by done. by rewrite decide_True by congruence. }
    lia.
  - assert (id y ≠ id e) as Hne.
    { intros Heq. apply Hy. rewrite Heq. apply list_elem_of_fmap. by exists e. }
    rewrite !fmap_cons, !sumZ_cons, IH by done.
    rewrite decide_True by done. lia.
Qed.

Lemma useCartTotal_snoc (l : list CartItem) (x : CartItem) (open : bool) :
  useCartTotal {| items := l ++ [x]; isOpen := open |} =
    (useCartTotal {| items := l; isOpen := open |} +
     price x * Number_of (quantity x))%float.
Proof. unfold useCartTotal, calculateTotals. simpl. by rewrite fold_left_app. Qed.

(** X3 (what a removal takes off the count). In a state reached from
    the empty cart, removing a line of the cart lowers the item count by
    that line's quantity and leaves no line of that id. *)
Theorem removeItem_lowers_count (actions : list Action) (e : CartItem) :
  let state := run actions initialState in
  e ∈ items state →
  useCartItemCount (removeItem (id e) state) = useCartItemCount state - quantity e ∧
  id e ∉ id <$> items (removeItem (id e) state).
Proof.
  intros state He. pose proof (run_ids_NoDup actions) as Hnd.
  rewrite !useCartItemCount_sum. unfold removeItem, set. simpl. split.
  - by apply (sumZ_remove quantity).
  - intros (x & Hid & [Hx _]%list_elem_of_filter)%list_elem_of_fmap.
    by apply Hx.
Qed.

(** X4 (what an add puts on the totals). An [addItem] whose id is new
    raises the item count by the quantity it brings, and the total by
    one more addition of doubles, that of the price times the quantity
    it brings. An [addItem] that merges raises the item count by the
    units actually added: never more than the quantity asked for, and
    less exactly when the line's ceiling cuts the sum. *)
Theorem addItem_raises_totals (item : Omit.CartItem) (state : CartState) :
  match list_find (λ i, id i = idOf item) (items state) with
  | None =>
      useCartTotal (addItem item state) =
        (useCartTotal state + Omit.price item * Number_of (Omit.quantity item))%float ∧
      useCartItemCount (addItem item state) =
        useCartItemCount state + Omit.quantity item
  | Some (k, e) =>
      let added :=
        clamp (maxQuantity e) (quantity e + Omit.quantity item) - quantity e in
      useCartItemCount (addItem item state) = useCartItemCount state + added ∧
      added ≤ Omit.quantity item
  end.
Proof.
  destruct (list_find _ _) as [[k e]|] eqn:Hfind.
  - rewrite !useCartItemCount_sum.
    rewrite (addItem_existing _ _ _ _ Hfind). simpl.
    apply find_id_lookup in Hfind as [Hk _].
    rewrite (sumZ_insert _ _ _ e) by done. simpl.
    split; [lia|].
    unfold clamp. destruct (truthy (maxQuantity e)); lia.
  - apply find_id_None in Hfind. rewrite addItem_new by done. split.
    + rewrite useCartTotal_snoc. by destruct state.
    + rewrite !useCartItemCount_sum. simpl.
      rewrite fmap_app, sumZ_app. simpl. unfold sumZ. simpl. lia.
Qed.

(** ** The quantity buttons of a line *)

(** X5 (the minus button). On a line of a reachable cart that holds at
    least one unit and is within its ceiling, the decrease handler
    lowers the item count by exactly one: it removes the line when it
    held a single unit, and otherwise leaves it with one unit less. *)
Theorem onDecrease_takes_one (actions : list Action) (e : CartItem) :
  let state := run actions initialState in
  e ∈ items state →
  1 ≤ quantity e →
  withinCeiling (quantity e) (maxQuantity e) →
  useCartItemCount (onDecrease e state) = useCartItemCount state - 1 ∧
  (quantity e = 1 → onDecrease e state = removeItem (id e) state) ∧
  (1 < quantity e → with_quantity e (quantity e - 1) ∈ items (onDecrease e state)).
Proof.
  intros state He Hq Hmax. pose proof (run_ids_NoDup actions) as Hnd.
  assert (1 < quantity e →
          clamp (maxQuantity e) (quantity e - 1) = quantity e - 1) as Hclamp.
  { intros Hq1. unfold clamp. destruct (maxQuantity e) as [m|] eqn:Hm; simpl; [|done].
    destruct (Z.eqb_spec m 0) as [|Hm0]; simpl; [done|].
    specialize (Hmax m eq_refl Hm0). lia. }
  unfold onDecrease. split_and!.
  - rewrite !useCartItemCount_sum.
    destruct (Z.le_gt_cases (quantity e - 1) 0) as [Hle|Hgt].
    + rewrite updateQuantity_nonpositive_items by done.
      rewrite (sumZ_remove quantity) by done. lia.
    + rewrite updateQuantity_positive_items by lia.
      rewrite (sumZ_rewrite_line quantity
                 (λ i, with_quantity i (clamp (maxQuantity i) (quantity e - 1))))
        by done.
      simpl. rewrite Hclamp by lia. lia.
  - intros Hone. unfold updateQuantity, removeItem, set.
    by destruct (Z.leb_spec (quantity e - 1) 0) as [_|]; [|lia].
  - intros Hmore. rewrite updateQuantity_positive_items by lia.
    apply list_elem_of_fmap. exists e. split; [|done].
    rewrite decide_False by (intros H; by apply H). by rewrite Hclamp.
Qed.

(** X6 (the plus button). On a line of a reachable cart with a
    non-negative quantity whose increase button is not greyed out, the
    increase handler raises the item count by exactly one, leaves the
    line with one unit more, and that is still within its ceiling. *)
Theorem onIncrease_adds_one (actions : list Action) (e : CartItem) :
  let state := run actions initialState in
  e ∈ items state →
  0 ≤ quantity e →
  increaseDisabled e = false →
  useCartItemCount (onIncrease e state) = useCartItemCount state + 1 ∧
  with_quantity e (quantity e + 1) ∈ items (onIncrease e state) ∧
  withinCeiling (quantity e + 1) (maxQuantity e).
Proof.
  intros state He Hq Hen. pose proof (run_ids_NoDup actions) as Hnd.
  assert (clamp (maxQuantity e) (quantity e + 1) = quantity e + 1 ∧
          withinCeiling (quantity e + 1) (maxQuantity e)) as [Hclamp Hwithin].
  { unfold increaseDisabled, clamp, withinCeiling in *.
    destruct (maxQuantity e) as [m|]; simpl in *; [|done].
    destruct (decide (m = 0)) as [Hm0|Hm0].
    - subst m. simpl. split; [done|]. intros m' [= Hm'] Hne. congruence.
    - pose proof (proj2 (Z.eqb_neq m 0) Hm0) as Hneq. rewrite Hneq in *.
      simpl in *. apply Z.leb_gt in Hen. split; [lia|].
      intros m' [= Hm'] _. lia. }
  unfold onIncrease. rewrite !useCartItemCount_sum.
  rewrite updateQuantity_positive_items by lia. split_and!; [| |done].
  - rewrite (sumZ_rewrite_line quantity
               (λ i, with_quantity i (clamp (maxQuantity i) (quantity e + 1))))
      by done.
    simpl. rewrite Hclamp. lia.
  - apply list_elem_of_fmap. exists e. split; [|done].
    rewrite decide_False by (intros H; by apply H). by rewrite Hclamp.
Qed.

(** ** How the actions compose *)

Lemma removeItem_gone (id' : string) (state : CartState) :
  id' ∉ id <$> items (removeItem id' state).
Proof.
  unfold removeItem, set. simpl.
  intros (x & Hid & [Hx _]%list_elem_of_filter)%list_elem_of_fmap. by apply Hx.
Qed.

(** X7 (the last update wins). A positive update of a line overrides
    whatever update of the same line came just before it: after a
    positive one the state is that of the later update alone, and after
    a non-positive one, which removed the line, the later update finds
    nothing to change. *)
Theorem updateQuantity_last_wins (id' : string) (q1 q2 : Z) (state : CartState) :
  0 < q2 →
  updateQuantity id' q2 (updateQuantity id' q1 state) =
    if q1 <=? 0 then removeItem id' state else updateQuantity id' q2 state.
Proof.
  intros Hq2. destruct (Z.leb_spec q1 0) as [Hq1|Hq1].
  - assert (updateQuantity id' q1 state = removeItem id' state) as ->.
    { unfold updateQuantity, removeItem, set.
      by destruct (Z.leb_spec q1 0) as [_|]; [|lia]. }
    apply updateQuantity_absent, removeItem_gone.
  - unfold updateQuantity, set.
    destruct (Z.leb_spec q1 0) as [|_]; [lia|].
    destruct (Z.leb_spec q2 0) as [|_]; [lia|]. simpl. f_equal.
    rewrite <-list_fmap_compose. apply list_fmap_ext.
    intros k x _. simpl. destruct (decide (id x ≠ id')) as [Hx|Hx].
    + by rewrite decide_True.
    + simpl. by rewrite decide_False.
Qed.

(** X8 (removing what was just added). Adding a line whose id is new and
    removing that id again gives back the lines the cart had, in their
    order; only the drawer is left open. *)
Theorem removeItem_undoes_addItem (item : Omit.CartItem) (state : CartState) :
  idOf item ∉ id <$> items state →
  removeItem (idOf item) (addItem item state) =
    {| items := items state; isOpen := true |}.
Proof.
  intros Hnew. rewrite addItem_new by done.
  unfold removeItem, set. simpl. f_equal.
  rewrite filter_app, filter_other_ids_absent by done.
  rewrite filter_cons_False by (intros H; by apply H).
  by rewrite filter_nil, app_nil_r.
Qed.

Lemma dispatch_items_congr (state1 state2 : CartState) (a : Action) :
  items state1 = items state2 →
  items (dispatch state1 a) = items (dispatch state2 a).
Proof.
  intros Heq. destruct a as [item|id'|id' q| | | |]; cbn [dispatch];
    unfold addItem, removeItem, updateQuantity, clearCart, openCart, closeCart,
      toggleCart, set; simpl; rewrite ?Heq; done.
Qed.

Lemma run_cons (a : Action) (actions : list Action) (state : CartState) :
  run (a :: actions) state = run actions (dispatch state a).
Proof. done. Qed.

(** X9 (the drawer does not touch the lines). The lines a sequence of
    actions leads to depend on the lines it starts from only, not on
    whether the drawer is open, and are the same with every [openCart],
    [closeCart] and [toggleCart] left out of the sequence. *)
Theorem items_ignore_visibility (actions : list Action) (state1 state2 : CartState) :
  items state1 = items state2 →
  items (run actions state1) =
    items (run (filter (λ a, ¬ visibilityOnly a) actions) state2).
Proof.
  revert state1 state2.
  induction actions as [|a actions IH]; intros state1 state2 Heq; [done|].
  rewrite run_cons. destruct (decide (visibilityOnly a)) as [Hvis|Hvis].
  - rewrite filter_cons_False by (intros H; by apply H).
    apply IH. rewrite <-Heq. by destruct a.
  - rewrite filter_cons_True by done. rewrite run_cons.
    by apply IH, dispatch_items_congr.
Qed.

(** ** What an id stands for *)

Lemma run_ids_derived (actions : list Action) :
  Forall (λ e, id e = generateCartItemId (productId e) (variationId e) (attributes e))
    (items (run actions initialState)).
Proof.
  induction actions as [|a actions IH] using rev_ind; [constructor|].
  rewrite run_snoc. by apply dispatch_lines_invariant.
Qed.

(** X10 (a stored id is the id of the line's own fields). In every
    state reached from the empty cart, the id of each line is the id
    [generateCartItemId] derives from the product id, variation id and
    attributes stored on that very line. *)
Theorem stored_id_is_derived (actions : list Action) (e : CartItem) :
  e ∈ items (run actions initialState) →
  id e = generateCartItemId (productId e) (variationId e) (attributes e).
Proof.
  intros He. by eapply (proj1 (Forall_forall _ _) (run_ids_derived actions)).
Qed.

Lemma generateCartItemId_variation_or_zero
    (p : Z) (v1 v2 : option Z) (a : option Attributes) :
  default 0 (or_else v1 (Some 0)) = default 0 (or_else v2 (Some 0)) →
  generateCartItemId p v1 a = generateCartItemId p v2 a.
Proof.
  unfold generateCartItemId, or_else.
  destruct v1 as [[|x1|x1]|], v2 as [[|x2|x2]|]; simpl; intros H;
    by (done || injection H as ->).
Qed.

(** X11 (what tells two lines apart). In every state reached from the
    empty cart, two lines that agree on the product id, on the
    variation id the checkout would send for them ([variationId || 0])
    and on the attributes are one and the same line. *)
Theorem lines_unique_by_variant (actions : list Action) (i j : nat) (e1 e2 : CartItem) :
  let state := run actions initialState in
  items state !! i = Some e1 →
  items state !! j = Some e2 →
  productId e1 = productId e2 →
  default 0 (or_else (variationId e1) (Some 0)) =
    default 0 (or_else (variationId e2) (Some 0)) →
  attributes e1 = attributes e2 →
  i = j.
Proof.
  intros state Hi Hj Hp Hv Ha.
  pose proof (run_ids_derived actions) as Hder.
  rewrite Forall_forall in Hder.
  assert (id e1 = id e2) as Hid.
  { assert (e1 ∈ items state) as H1 by by eapply list_elem_of_lookup_2.
    assert (e2 ∈ items state) as H2 by by eapply list_elem_of_lookup_2.
    apply Hder in H1, H2. rewrite H1, H2, Hp, Ha.
    by apply generateCartItemId_variation_or_zero. }
  eapply (NoDup_lookup (id <$> items state)); [apply run_ids_NoDup|..].
  - by rewrite list_lookup_fmap, Hi.
  - rewrite list_lookup_fmap, Hj. simpl. by rewrite Hid.
Qed.

(** ** Ids of different products *)

Lemma app_String (c : ascii) (s t : string) : String c s +:+ t = String c (s +:+ t).
Proof. done. Qed.

Lemma string_app_assoc (s t u : string) : (s +:+ t) +:+ u = s +:+ (t +:+ u).
Proof.
  induction s as [|c s IH]; [done|]. by rewrite !app_String, IH.
Qed.

Lemma pretty_N_char_not_hyphen (x : N) :
  Ascii.eqb (pretty_N_char x) "-"%char = false.
Proof. unfold pretty_N_char. by repeat case_match. Qed.

Lemma pretty_N_go_hyphen_free (x : N) (s : string) :
  hyphen_free s = true → hyphen_free (pretty_N_go x s) = true.
Proof.
  revert s. induction (N.lt_wf_0 x) as [x _ IH]; intros s Hs.
  assert (x = 0 ∨ 0 < x)%N as [->|Hx] by lia.
  - by rewrite pretty_N_go_0.
  - rewrite pretty_N_go_step by done. apply IH.
    { by apply N.div_lt. }
    simpl. by rewrite pretty_N_char_not_hyphen, Hs.
Qed.

Lemma pretty_N_go_nonempty (x : N) (s : string) : s ≠ "" → pretty_N_go x s ≠ "".
Proof.
  revert s. induction (N.lt_wf_0 x) as [x _ IH]; intros s Hs.
  assert (x = 0 ∨ 0 < x)%N as [->|Hx] by lia.
  - by rewrite pretty_N_go_0.
  - rewrite pretty_N_go_step by done. apply IH; [|done]. by apply N.div_lt.
Qed.

Lemma pretty_N_digits (x : N) : hyphen_free (pretty x) = true ∧ pretty x ≠ "".
Proof.
  unfold pretty, pretty_N. case_decide as Hx; [done|]. split.
  - by apply pretty_N_go_hyphen_free.
  - assert (0 < x)%N as Hpos by lia.
    rewrite pretty_N_go_step by done. by apply pretty_N_go_nonempty.
Qed.

(** Where the digits end is fixed by the string: a hyphen-free prefix
    followed by nothing or by a hyphen can be read back. *)
Lemma hyphen_free_prefix_unique (d1 d2 t1 t2 : string) :
  hyphen_free d1 = true → hyphen_free d2 = true →
  hyphen_led t1 → hyphen_led t2 →
  d1 +:+ t1 = d2 +:+ t2 → d1 = d2.
Proof.
  revert d2. induction d1 as [|c1 d1 IH]; intros [|c2 d2] H1 H2 Ht1 Ht2 Heq;
    [done|..].
  - exfalso. change ("" +:+ t1) with t1 in Heq. rewrite app_String in Heq.
    destruct Ht1 as [->|[rest ->]]; [done|]. injection Heq as <- _.
    by simpl in H2.
  - exfalso. change ("" +:+ t2) with t2 in Heq. rewrite app_String in Heq.
    destruct Ht2 as [->|[rest ->]]; [done|]. injection Heq as -> _.
    by simpl in H1.
  - rewrite !app_String in Heq. injection Heq as -> Heq.
    simpl in H1, H2. apply andb_prop in H1 as [_ H1], H2 as [_ H2].
    f_equal. by eapply IH.
Qed.

Lemma generateCartItemId_shape
    (p : Z) (v : option Z) (a : option Attributes) :
  ∃ tail, generateCartItemId p v a = String_of p +:+ tail ∧ hyphen_led tail.
Proof.
  unfold generateCartItemId.
  destruct (truthy v), a as [entries|];
    try destruct (0 <? length (fst <$> entries))%nat.
  - eexists. rewrite string_app_assoc. split; [done|]. right. by eexists.
  - eexists. split; [done|]. right. by eexists.
  - eexists. split; [done|]. right. by eexists.
  - eexists. split; [done|]. right. by eexists.
  - exists "". split; [|by left].
    induction (String_of p) as [|c s IH]; [done|]. by rewrite app_String, <-IH.
  - exists "". split; [|by left].
    induction (String_of p) as [|c s IH]; [done|]. by rewrite app_String, <-IH.
Qed.

(** X12 (lines of different products never merge). Two ids are equal
    only when they were derived from the same product id, whatever the
    variation ids and attributes are. *)
Theorem generateCartItemId_fixes_productId
    (p1 p2 : Z) (v1 v2 : option Z) (a1 a2 : option Attributes) :
  generateCartItemId p1 v1 a1 = generateCartItemId p2 v2 a2 → p1 = p2.
Proof.
  destruct (generateCartItemId_shape p1 v1 a1) as (t1 & -> & Ht1).
  destruct (generateCartItemId_shape p2 v2 a2) as (t2 & -> & Ht2).
  assert (∀ p, 0 ≤ p → hyphen_free (String_of p) = true ∧ String_of p ≠ "")
    as Hdigits.
  { intros [|x|x] Hp; [done| |lia]. apply (pretty_N_digits (N.pos x)). }
  assert (∀ x, String_of (Z.neg x) = String "-"%char (pretty (N.pos x)))
    as Hneg by done.
  intros Heq. destruct (Z.le_gt_cases 0 p1) as [Hp1|Hp1],
    (Z.le_gt_cases 0 p2) as [Hp2|Hp2].
  - destruct (Hdigits p1 Hp1) as [H1 _], (Hdigits p2 Hp2) as [H2 _].
    apply (inj (pretty : Z → string)).
    exact (hyphen_free_prefix_unique _ _ t1 t2 H1 H2 Ht1 Ht2 Heq).
  - exfalso. destruct (Hdigits p1 Hp1) as [H1 Hne].
    destruct p2 as [|x|x]; [lia..|]. rewrite Hneg, app_String in Heq.
    destruct (String_of p1) as [|c s]; [done|].
    rewrite app_String in Heq. injection Heq as -> _. by simpl in H1.
  - exfalso. destruct (Hdigits p2 Hp2) as [H2 Hne].
    destruct p1 as [|x|x]; [lia..|]. rewrite Hneg, app_String in Heq.
    destruct (String_of p2) as [|c s]; [done|].
    rewrite app_String in Heq. injection Heq as <- _. by simpl in H2.
  - destruct p1 as [|x1|x1]; [lia..|]. destruct p2 as [|x2|x2]; [lia..|].
    rewrite !Hneg, !app_String in Heq. injection Heq as Heq.
    destruct (pretty_N_digits (N.pos x1)) as [H1 _].
    destruct (pretty_N_digits (N.pos x2)) as [H2 _].
    assert (pretty (N.pos x1) = pretty (N.pos x2)) as Hx
      by exact (hyphen_free_prefix_unique _ _ t1 t2 H1 H2 Ht1 Ht2 Heq).
    apply (inj pretty) in Hx. by injection Hx as ->.
Qed.

Lemma run_items_congr (actions : list Action) (state1 state2 : CartState) :
  items state1 = items state2 →
  items (run actions state1) = items (run actions state2).
Proof.
  revert state1 state2.
  induction actions as [|a actions IH]; intros state1 state2 Heq; [done|].
  rewrite !run_cons. by apply IH, dispatch_items_congr.
Qed.

End Store.

(** ** The scenarios of the specification, evaluated *)

Example id_plain : generateCartItemId codeUnitCompare 10 None None = "10".
Proof. reflexivity. Qed.

Example id_variation_attrs :
  generateCartItemId codeUnitCompare 5 (Some 99)
    (Some [("Size", "M"); ("Color", "Blue")]) = "5-99-Color:Blue-Size:M".
Proof. vm_compute. reflexivity. Qed.

Example scenario_merge :
  let s := run codeUnitCompare [AddItem (shirt 1); AddItem (shirt 2)] initialState in
  (quantity <$> items s) = [3] ∧ useCartTotal s = 75%float ∧ isOpen s = true.
Proof. vm_compute. auto. Qed.

Example scenario_clamp :
  let item := jeans [("Size", "M"); ("Color", "Blue")] 1 (Some 2) in
  let s := run codeUnitCompare [AddItem item; AddItem item; AddItem item] initialState in
  (quantity <$> items s) = [2].
Proof. vm_compute. auto. Qed.

Example scenario_zero_update :
  let s := run codeUnitCompare [AddItem (shirt 4); UpdateQuantity "10" 0] initialState in
  items s = [] ∧ useCartItemCount s = 0.
Proof. vm_compute. auto. Qed.

Example scenario_order_independent :
  let s := run codeUnitCompare
             [AddItem (jeans [("Color", "Red"); ("Size", "L")] 1 None);
              AddItem (jeans [("Size", "L"); ("Color", "Red")] 1 None)]
             initialState in
  (id <$> items s) = ["5-99-Color:Red-Size:L"] ∧ (quantity <$> items s) = [2].
Proof. vm_compute. auto. Qed.


(** ** Persistence *)

Lemma as_attributes_toJSON (entries : Attributes) :
  as_attributes (Attributes_toJSON entries) = Some entries.
Proof.
  unfold as_attributes, Attributes_toJSON.
  apply mapM_fmap_Some. by intros [k v].
Qed.

Lemma as_float_ordinary (x : float) :
  ordinary x → as_float (Number_toJSON x) = Some x.
Proof. unfold ordinary, Number_toJSON. by destruct (classify x). Qed.

Lemma CartItem_fromJSON_toJSON (item : CartItem) :
  storable item → CartItem_fromJSON (CartItem_toJSON item) = Some item.
Proof.
  destruct item as [i p v n s pr rp q im a m]. intros [Hp Hr]. simpl in Hp, Hr.
  destruct v, rp as [r|], m, a as [entries|];
    cbn -[as_attributes Attributes_toJSON Number_toJSON];
    rewrite ?as_float_ordinary by auto;
    cbn -[as_attributes Attributes_toJSON Number_toJSON];
    rewrite ?as_float_ordinary by auto;
    cbn -[as_attributes Attributes_toJSON Number_toJSON];
    rewrite ?as_attributes_toJSON; reflexivity.
Qed.

(** C9, as amended (what is persisted, and the round trip). The
    snapshot [partialize] hands to the storage holds the lines of the
    cart and nothing else, so it does not change with [isOpen]; the
    value written to the slot is that snapshot under [state], beside the
    version; and, when the price and the regular price of every line
    are finite numbers other than the negative zero, reading the written
    value back gives the same lines, field for field. *)
Theorem persistence_round_trip (state : CartState) (open : bool) :
  Forall storable (items state) →
  persisted_items (partialize state) = items state ∧
  partialize {| items := items state; isOpen := open |} = partialize state ∧
  serialize state =
    JObject [("state", JObject [("items", JArray (CartItem_toJSON <$> items state))]);
             ("version", JNumber 1)] ∧
  serialize {| items := items state; isOpen := open |} = serialize state ∧
  deserialize (serialize state) = Some (partialize state).
Proof.
  intros Hstorable. split_and!; try done.
  unfold deserialize, serialize, Persisted_toJSON. cbn -[mapM].
  rewrite mapM_fmap_Forall_Some; [done|].
  eapply Forall_impl; [exact Hstorable|]. apply CartItem_fromJSON_toJSON.
Qed.

(** ** The statements at concrete carts *)

(** C8 at its failing input: after a shirt and a pair of jeans are
    added the cart holds two lines, worth 65 together, and the hooks
    say so, while the computed properties of the store object still read
    an empty cart. *)
Example computed_properties_at_two_lines :
  let o := store_run codeUnitCompare
             [AddItem (shirt 1); AddItem (jeans [] 1 None)] createStore in
  (quantity <$> items (fields o)) = [1; 1] ∧
  useCartTotal (fields o) = 65%float ∧
  useCartItemCount (fields o) = 2 ∧
  useCartIsEmpty (fields o) = false ∧
  read_total o = 0%float ∧
  read_subtotal o = 0%float ∧
  read_itemCount o = 0 ∧
  read_isEmpty o = true.
Proof. vm_compute. split_and!; reflexivity. Qed.

Lemma persistence_round_trip_witness :
  let state := run codeUnitCompare
                 [AddItem (shirt 1); AddItem (jeans [("Size", "M")] 2 (Some 3))]
                 initialState in
  persisted_items (partialize state) = items state ∧
  partialize {| items := items state; isOpen := false |} = partialize state ∧
  serialize state =
    JObject [("state", JObject [("items", JArray (CartItem_toJSON <$> items state))]);
             ("version", JNumber 1)] ∧
  serialize {| items := items state; isOpen := false |} = serialize state ∧
  deserialize (serialize state) = Some (partialize state).
Proof.
  intros state.
  apply (persistence_round_trip state false).
  repeat apply Forall_cons_2; try apply Forall_nil_2;
    (split; [exact I | by intros r [=]]).
Defined.

(** C9, as stated, fails for a line whose price is not a number. The
    product page passes [parseFloat] of the price string, which is
    [NaN] for an empty string; the line is written with the price
    [null], and the value read back is not the line that was written.
    No way of reading the written value would do: a line priced at
    [Infinity] is written to the very same value. *)
Lemma persistence_writes_NaN_price_as_null :
  let state := run codeUnitCompare [AddItem (unpriced 1)] initialState in
  let state' := run codeUnitCompare [AddItem (boundless 1)] initialState in
  serialize state =
    JObject
      [("state",
        JObject
          [("items",
            JArray
              [JObject
                 [("productId", JNumber 11); ("name", JString "Sample");
                  ("slug", JString "sample"); ("price", JNull);
                  ("quantity", JNumber 1); ("image", JString "");
                  ("id", JString "11")]])]);
       ("version", JNumber 1)] ∧
  deserialize (serialize state) ≠ Some (partialize state) ∧
  (price <$> items state) = [nan] ∧
  (price <$> items state') = [infinity] ∧
  serialize state' = serialize state ∧
  ∀ read : JSON → option Persisted,
    ¬ (read (serialize state) = Some (partialize state) ∧
       read (serialize state') = Some (partialize state')).
Proof.
  intros state state'.
  assert (serialize state' = serialize state) as Hsame by (vm_compute; reflexivity).
  split_and!; try exact Hsame; try (vm_compute; (reflexivity || discriminate)).
  intros read [Hread Hread']. rewrite Hsame, Hread in Hread'.
  apply (f_equal (λ stored,
           match stored with
           | Some p => classify <$> (price <$> persisted_items p)
           | None => []
           end)) in Hread'.
  vm_compute in Hread'. discriminate.
Qed.

Lemma codeUnitCompare_le (a b : string) : codeUnitCompare a b ≤ 0 ↔ String.le a b.
Proof.
  unfold codeUnitCompare, String.le, String.leb.
  destruct (String.compare a b); simpl; split; (done || lia).
Qed.

Lemma codeUnitCompare_consistent : ConsistentComparator codeUnitCompare.
Proof.
  split.
  - intros a b. unfold codeUnitCompare.
    rewrite (String.compare_antisym b a).
    destruct (String.compare a b); simpl; lia.
  - intros a b c. rewrite !codeUnitCompare_le. apply (transitivity (R:=String.le)).
Qed.

Lemma compare_on_consistent (f : string → string) (compare : string → string → Z) :
  ConsistentComparator compare → ConsistentComparator (compare_on f compare).
Proof.
  intros [Hswap Htrans]. split; unfold compare_on.
  - intros a b. apply Hswap.
  - intros a b c. apply Htrans.
Qed.

Lemma compare_flip_consistent (compare : string → string → Z) :
  ConsistentComparator compare → ConsistentComparator (λ a b, compare b a).
Proof.
  intros [Hswap Htrans]. split.
  - intros a b. apply Hswap.
  - intros a b c Hab Hbc. by apply (Htrans c b a).
Qed.

Lemma compare_then_consistent (first second : string → string → Z) :
  ConsistentComparator first → ConsistentComparator second →
  ConsistentComparator (compare_then first second).
Proof.
  intros [Hswap1 Htrans1] [Hswap2 Htrans2].
  assert (∀ a b, first a b = 0 → first b a = 0) as Hzero.
  { intros a b Hab. pose proof (Hswap1 a b). pose proof (Hswap1 b a). lia. }
  assert (∀ a b, compare_then first second a b ≤ 0 → first a b ≤ 0) as Hfirst.
  { intros a b. unfold compare_then. destruct (Z.eqb_spec (first a b) 0); lia. }
  split.
  - intros a b. unfold compare_then.
    destruct (Z.eqb_spec (first a b) 0) as [Hab|Hab],
      (Z.eqb_spec (first b a) 0) as [Hba|Hba].
    + apply Hswap2.
    + by apply Hzero in Hab.
    + by apply Hzero in Hba.
    + apply Hswap1.
  - intros a b c Hab Hbc.
    pose proof (Hfirst _ _ Hab) as Hab1. pose proof (Hfirst _ _ Hbc) as Hbc1.
    pose proof (Htrans1 _ _ _ Hab1 Hbc1) as Hac1.
    unfold compare_then in *.
    destruct (Z.eqb_spec (first a c) 0) as [Hac|Hac]; [|lia].
    pose proof (Hzero _ _ Hac) as Hca.
    assert (first a b = 0) as Hab0.
    { destruct (Z.eq_dec (first a b) 0) as [|Hne]; [done|].
      assert (first b a ≤ 0) by (apply (Htrans1 b c a); lia).
      pose proof (Hswap1 a b). lia. }
    assert (first b c = 0) as Hbc0.
    { destruct (Z.eq_dec (first b c) 0) as [|Hne]; [done|].
      assert (first c b ≤ 0) by (apply (Htrans1 c a b); lia).
      pose proof (Hswap1 b c). lia. }
    rewrite Hab0 in Hab. rewrite Hbc0 in Hbc. simpl in Hab, Hbc.
    by apply (Htrans2 a b c).
Qed.

Lemma canonicalCompare_consistent : ConsistentComparator canonicalCompare.
Proof. apply compare_on_consistent, codeUnitCompare_consistent. Qed.

Lemma caseBlindCompare_consistent : ConsistentComparator caseBlindCompare.
Proof.
  apply compare_then_consistent.
  - apply compare_on_consistent, codeUnitCompare_consistent.
  - apply compare_flip_consistent, codeUnitCompare_consistent.
Qed.

Lemma addItem_twice_merges_witness :
  let state' :=
    addItem codeUnitCompare (shirt 2) (addItem codeUnitCompare (shirt 1) initialState) in
  items state' = [with_quantity (with_id (shirt 1) "10") 3] ∧
  ∃ line,
    filter (λ i, id i = "10") (items state') = [line] ∧ quantity line = 3.
Proof.
  apply (addItem_twice_merges codeUnitCompare (shirt 1) (shirt 2) initialState);
    try reflexivity.
  simpl. apply not_elem_of_nil.
Defined.

Lemma generateCartItemId_order_independent_witness :
  generateCartItemId canonicalCompare 7 (Some 3) (Some [("A", "1"); ("B", "2")]) =
  generateCartItemId canonicalCompare 7 (Some 3) (Some [("B", "2"); ("A", "1")]).
Proof.
  apply (generateCartItemId_order_independent canonicalCompare 7 (Some 3)
           [("A", "1"); ("B", "2")] [("B", "2"); ("A", "1")]).
  - exact canonicalCompare_consistent.
  - intros k1 k2 H1 H2 Htie. simpl in H1, H2. elem_of_cases;
      (done || (vm_compute in Htie; discriminate)).
  - apply (bool_decide_unpack _). vm_compute. exact I.
  - apply Permutation_swap.
Defined.

(** C2, as stated, fails for keys [localeCompare] ties. The two
    spellings of é are distinct keys, canonically equivalent, so that
    the collation returns [0] for them; the stable sort then leaves them
    in the order they were inserted in, and the two orders of insertion
    give two ids. *)
Lemma generateCartItemId_keeps_order_of_tied_keys :
  let entries1 := [(e_acute_composed, "1"); (e_acute_decomposed, "2")] in
  let entries2 := [(e_acute_decomposed, "2"); (e_acute_composed, "1")] in
  NoDup (fst <$> entries1) ∧
  entries1 ≡ₚ entries2 ∧
  canonicalCompare e_acute_composed e_acute_decomposed = 0 ∧
  generateCartItemId canonicalCompare 7 None (Some entries1) ≠
    generateCartItemId canonicalCompare 7 None (Some entries2).
Proof.
  intros entries1 entries2. split_and!.
  - apply (bool_decide_unpack _). vm_compute. exact I.
  - apply Permutation_swap.
  - reflexivity.
  - vm_compute. discriminate.
Qed.

Lemma generateCartItemId_refines_deriveId_witness :
  let attributes := Some [("Size", "M"); ("Color", "Blue")] in
  generateCartItemId canonicalCompare 5 (Some 99) attributes =
    deriveIdBy canonicalCompare 5 (Some 99) attributes ∧
  sort_entries canonicalCompare [("Size", "M"); ("Color", "Blue")] ≡ₚ
    [("Size", "M"); ("Color", "Blue")] ∧
  StronglySorted (λ e1 e2, canonicalCompare (fst e1) (fst e2) ≤ 0)
    (sort_entries canonicalCompare [("Size", "M"); ("Color", "Blue")]) ∧
  generateCartItemId canonicalCompare 5 (Some 99) attributes =
    deriveId 5 (Some 99) attributes.
Proof.
  intros attributes.
  destruct (generateCartItemId_refines_deriveId canonicalCompare 5 (Some 99) attributes
              canonicalCompare_consistent) as (Hby & Hperm & Hsorted & Href).
  split_and!; [exact Hby|exact Hperm|exact Hsorted|].
  apply Href. intros k1 k2 H1 H2. simpl in H1, H2.
  elem_of_cases; vm_compute; split; intros H; try exact H; discriminate.
Defined.

(** C3, as stated, fails in two places. Where the variation id is
    present and is [0], the store leaves it out of the id and the
    reference algorithm writes it. And where the collation and the
    lexicographic order part, as on the keys ["a"] and ["B"], the store
    follows the collation. *)
Lemma generateCartItemId_departs_from_reference :
  generateCartItemId caseBlindCompare 5 (Some 0) None = "5" ∧
  deriveId 5 (Some 0) None = "5-0" ∧
  caseBlindCompare "a" "B" < 0 ∧
  codeUnitCompare "B" "a" < 0 ∧
  generateCartItemId caseBlindCompare 7 None (Some [("a", "1"); ("B", "2")]) =
    "7-a:1-B:2" ∧
  deriveId 7 None (Some [("a", "1"); ("B", "2")]) = "7-B:2-a:1".
Proof. vm_compute. split_and!; reflexivity. Qed.

(** C4, as stated, fails at the ceiling [0]: two adds of quantity [1]
    with [maxQuantity = 0] request [2 > 0] in all, and the line holds
    [2], not [0]. *)
Lemma addItem_zero_ceiling_not_clamped :
  let item := jeans [("Size", "M"); ("Color", "Blue")] 1 (Some 0) in
  let state := run codeUnitCompare [AddItem item; AddItem item] initialState in
  (maxQuantity <$> items state) = [Some 0] ∧
  Omit.quantity item + Omit.quantity item > 0 ∧
  (quantity <$> items state) = [2] ∧
  (quantity <$> items state) ≠ [0].
Proof. vm_compute. split_and!; (reflexivity || discriminate). Qed.

Lemma addItem_clamps_to_ceiling_witness :
  let attrs := [("Size", "M"); ("Color", "Blue")] in
  let state := run codeUnitCompare [AddItem (jeans attrs 1 (Some 2))] initialState in
  let line := with_id (jeans attrs 1 (Some 2)) "5-99-Color:Blue-Size:M" in
  items (addItem codeUnitCompare (jeans attrs 2 (Some 2)) state) !! 0%nat =
    Some (with_quantity line 2).
Proof.
  intros attrs state line.
  apply (addItem_clamps_to_ceiling codeUnitCompare
           (jeans attrs 2 (Some 2)) state 0 line 2).
  - vm_compute. reflexivity.
  - reflexivity.
  - discriminate.
  - vm_compute. reflexivity.
Defined.

(** C5 at its failing input: the first [addItem] of a line stores the
    requested quantity as it is, above the ceiling it stores beside it,
    where a second [addItem] and [updateQuantity] bring the same line
    back under the ceiling. *)
Lemma addItem_first_add_exceeds_ceiling :
  let attrs := [("Size", "M"); ("Color", "Blue")] in
  let first := run codeUnitCompare [AddItem (jeans attrs 5 (Some 2))] initialState in
  let merged := addItem codeUnitCompare (jeans attrs 1 (Some 2)) first in
  let updated := updateQuantity "5-99-Color:Blue-Size:M" 5 first in
  (quantity <$> items first) = [5] ∧
  (maxQuantity <$> items first) = [Some 2] ∧
  ¬ (5 ≤ 2) ∧
  (quantity <$> items merged) = [2] ∧
  (quantity <$> items updated) = [2].
Proof. vm_compute. split_and!; (reflexivity || (intros H; by apply H)). Qed.

Lemma updateQuantity_nonpositive_removes_witness :
  let state := run codeUnitCompare [AddItem (shirt 4)] initialState in
  -5 ≤ 0 ∧
  updateQuantity "10" (-5) state = removeItem "10" state ∧
  items (updateQuantity "10" (-5) state) = [].
Proof.
  intros state. split; [lia|]. split; [|reflexivity].
  apply (updateQuantity_nonpositive_removes "10" (-5) state). lia.
Defined.

Lemma addItem_merge_frame_witness :
  let state := run codeUnitCompare [AddItem (shirt 1)] initialState in
  ∃ (k : nat) (e e' : CartItem),
    list_find (λ i, id i = "10") (items state) = Some (k, e) ∧
    items (addItem codeUnitCompare (shirt 2) state) = <[k := e']> (items state) ∧
    items (addItem codeUnitCompare (shirt 2) state) !! k = Some e' ∧
    e' = with_quantity e (quantity e') ∧
    (id e', productId e', variationId e', name e', slug e') =
      (id e, productId e, variationId e, name e, slug e) ∧
    (price e', regularPrice e', image e', attributes e', maxQuantity e') =
      (price e, regularPrice e, image e, attributes e, maxQuantity e) ∧
    length (items (addItem codeUnitCompare (shirt 2) state)) = length (items state) ∧
    ∀ j, j ≠ k → items (addItem codeUnitCompare (shirt 2) state) !! j = items state !! j.
Proof.
  intros state.
  apply (addItem_merge_frame codeUnitCompare (shirt 2) state).
  apply list_elem_of_here.
Defined.

(** ** The order sent by the checkout page *)

(** X15 (the order mirrors the cart). The line items of an order are
    the lines of the cart, one for one and in their order, with the
    product id and the quantity of the line and with variation id [0]
    exactly for the lines without a variation; their quantities add up
    to the item count of the cart. *)
Theorem lineItems_mirror_cart (state : CartState) :
  length (lineItems (useCartItems state)) = length (items state) ∧
  sumZ (Checkout.quantity <$> lineItems (useCartItems state)) =
    useCartItemCount state ∧
  ∀ i e, items state !! i = Some e →
    ∃ l, lineItems (useCartItems state) !! i = Some l ∧
         Checkout.product_id l = productId e ∧
         Checkout.quantity l = quantity e ∧
         (Checkout.variation_id l = 0 ↔ truthy (variationId e) = false) ∧
         (truthy (variationId e) = true →
          variationId e = Some (Checkout.variation_id l)).
Proof.
  unfold useCartItems, lineItems. split_and!.
  - apply length_fmap.
  - rewrite useCartItemCount_sum. simpl. rewrite <-list_fmap_compose.
    by apply (f_equal sumZ), list_fmap_ext.
  - intros i e Hi. eexists. rewrite list_lookup_fmap, Hi. simpl.
    split_and!; try done; unfold or_else.
    + destruct (variationId e) as [v|]; simpl; [|done].
      destruct (Z.eqb_spec v 0) as [->|Hv]; simpl; [done|].
      split; [done|discriminate].
    + destruct (variationId e) as [v|]; simpl; [|done].
      by destruct (Z.eqb_spec v 0).
Qed.

(** ** The quantity selector of the product page *)

Lemma selectedQuantity_snoc (presses : list (option Z * Press)) (p : option Z * Press) :
  selectedQuantity (presses ++ [p]) = press (fst p) (selectedQuantity presses) (snd p).
Proof. unfold selectedQuantity. by rewrite fold_left_app. Qed.

(** Whatever the stock quantities in force at the presses, none of them
    negative, the selected quantity is at least one. *)
Lemma selectedQuantity_at_least_one (presses : list (option Z * Press)) :
  Forall (λ p, ∀ m, fst p = Some m → 0 ≤ m) presses →
  1 ≤ selectedQuantity presses.
Proof.
  induction presses as [|[stock b] presses IH] using rev_ind; intros Hstock.
  - done.
  - apply Forall_app in Hstock as [Hpresses Hlast].
    apply Forall_inv in Hlast. simpl in Hlast.
    rewrite selectedQuantity_snoc. specialize (IH Hpresses). simpl.
    destruct b; simpl.
    + unfold decrementQuantity. lia.
    + unfold incrementQuantity. destruct stock as [m|]; simpl; [|lia].
      destruct (decide (m = 0)) as [->|Hm0]; simpl; [lia|].
      apply Z.eqb_neq in Hm0 as Hm0'. rewrite Hm0'. simpl.
      specialize (Hlast m eq_refl). lia.
Qed.

(** X16 (the selector stays within an unchanged stock). When the stock
    quantity the component computes, absent or not negative, is the
    same at every press and at the add, as it is for a product without
    variations: the selected quantity is at least one and within the
    ceiling [handleAddToCart] passes on with it; pressing the increase
    button while it is greyed out would change nothing; and an
    [addItem] built from the selected quantity and that ceiling asks for
    at least one unit and for no more than its ceiling. *)
Theorem selectedQuantity_within_stock
    (stockQuantity : option Z) (presses : list (option Z * Press))
    (item : Omit.CartItem) :
  (∀ m, stockQuantity = Some m → 0 ≤ m) →
  Forall (λ p, fst p = stockQuantity) presses →
  Omit.quantity item = selectedQuantity presses →
  Omit.maxQuantity item = maxQuantityOf stockQuantity →
  1 ≤ selectedQuantity presses ∧
  withinCeiling (selectedQuantity presses) (maxQuantityOf stockQuantity) ∧
  (incrementDisabled stockQuantity (selectedQuantity presses) = true →
   selectedQuantity (presses ++ [(stockQuantity, Plus)]) = selectedQuantity presses) ∧
  requestsWithinCeiling (AddItem item) ∧
  requestsAtLeastOne (AddItem item).
Proof.
  intros Hstock Hsame Hq Hmax.
  assert (1 ≤ selectedQuantity presses) as Hone.
  { apply selectedQuantity_at_least_one.
    eapply Forall_impl; [exact Hsame|]. intros p -> m. apply Hstock. }
  assert (∀ m, stockQuantity = Some m → m ≠ 0 → selectedQuantity presses ≤ m)
    as Hceil.
  { clear Hq Hmax Hone.
    induction presses as [|[stock b] presses IH] using rev_ind.
    - intros m Hm Hm0. specialize (Hstock m Hm). unfold selectedQuantity. simpl.
      unfold initialQuantity. lia.
    - apply Forall_app in Hsame as [Hpresses Hlast].
      apply Forall_inv in Hlast. simpl in Hlast. subst stock.
      specialize (IH Hpresses). intros m Hm Hm0.
      rewrite selectedQuantity_snoc. simpl. specialize (IH m Hm Hm0).
      destruct b; simpl.
      + unfold decrementQuantity. specialize (Hstock m Hm). lia.
      + unfold incrementQuantity. rewrite Hm. simpl.
        apply Z.eqb_neq in Hm0 as ->. simpl. lia. }
  assert (∀ m, maxQuantityOf stockQuantity = Some m → stockQuantity = Some m)
    as Hpass.
  { intros m. unfold maxQuantityOf, or_else.
    by destruct (truthy stockQuantity). }
  split_and!; [done| | | |].
  - intros m Hm Hm0. apply Hceil; [by apply Hpass|done].
  - rewrite selectedQuantity_snoc. simpl.
    unfold incrementDisabled, incrementQuantity.
    destruct stockQuantity as [m|]; simpl; [|done].
    destruct (Z.eqb_spec m 0) as [|Hm0]; simpl; [done|].
    intros Hfull%Z.leb_le. specialize (Hceil m eq_refl Hm0). lia.
  - simpl. rewrite Hq, Hmax. intros m Hm Hm0. apply Hceil; [by apply Hpass|done].
  - simpl. rewrite Hq, Hmax. split; [done|].
    intros m Hm. apply Hstock. by apply Hpass.
Qed.

(** The hypothesis that the stock is unchanged is needed: the quantity
    selected while a variation with five in stock is chosen stays
    selected when a variation with two in stock is chosen next, and is
    then above the ceiling the add passes on. *)
Example selectedQuantity_outlives_stock :
  let presses := [(Some 5, Plus); (Some 5, Plus); (Some 5, Plus); (Some 5, Plus)] in
  selectedQuantity presses = 5 ∧
  ¬ withinCeiling (selectedQuantity presses) (maxQuantityOf (Some 2)).
Proof.
  split; [reflexivity|]. intros H. specialize (H 2 eq_refl). vm_compute in H.
  apply H; [discriminate|reflexivity].
Qed.

(** ** The authentication store *)

(** X17 (signed in means user and token). In every state the
    authentication store reaches from its initial state,
    [isAuthenticated] is set exactly when a user is stored, and a user is
    stored exactly when a token is; and what [partialize] hands to the
    storage is the same whatever [isLoading] is. *)
Theorem auth_signed_in_iff_user_and_token (actions : list Auth.Action) (loading : bool) :
  let state := Auth.run actions Auth.initialState in
  (Auth.useIsAuthenticated state = true ↔ is_Some (Auth.useUser state)) ∧
  (is_Some (Auth.useUser state) ↔ is_Some (Auth.useAuthToken state)) ∧
  Auth.partialize (Auth.setLoading loading state) = Auth.partialize state.
Proof.
  intros state.
  assert ((Auth.isAuthenticated state = true ↔ is_Some (Auth.user state)) ∧
          (is_Some (Auth.user state) ↔ is_Some (Auth.token state))) as [H1 H2].
  { subst state. induction actions as [|a actions IH] using rev_ind.
    - simpl. split; split; (done || by intros [? ?]).
    - unfold Auth.run in *. rewrite fold_left_app. simpl.
      destruct a as [u t| |l]; simpl; [| |done].
      + split; split; by eauto.
      + split; split; (done || by intros [? ?]). }
  by split_and!.
Qed.

(** ** The further statements at concrete carts *)

Lemma ceiling_kept_by_bounded_adds_witness :
  let attrs := [("Size", "M"); ("Color", "Blue")] in
  Forall (λ e, withinCeiling (quantity e) (maxQuantity e))
    (items (run codeUnitCompare
              [AddItem (jeans attrs 1 (Some 2)); AddItem (jeans attrs 2 (Some 2));
               UpdateQuantity "5-99-Color:Blue-Size:M" 7]
              initialState)).
Proof.
  intros attrs. apply (ceiling_kept_by_bounded_adds codeUnitCompare).
  repeat apply Forall_cons_2; try apply Forall_nil_2; simpl; try done;
    intros m [= <-] _; lia.
Defined.

Lemma quantities_stay_positive_witness :
  Forall (λ e, 1 ≤ quantity e)
    (items (run codeUnitCompare
              [AddItem (shirt 2); UpdateQuantity "10" 0; AddItem (shirt 1)]
              initialState)).
Proof.
  apply (quantities_stay_positive codeUnitCompare).
  repeat apply Forall_cons_2; try apply Forall_nil_2; simpl; try done;
    (split; [lia|by intros m [=]]).
Defined.

Lemma removeItem_lowers_count_witness :
  let state := run codeUnitCompare [AddItem (shirt 3); AddItem (jeans [] 1 None)]
                 initialState in
  useCartItemCount (removeItem "10" state) = useCartItemCount state - 3 ∧
  "10" ∉ id <$> items (removeItem "10" state).
Proof.
  apply (removeItem_lowers_count codeUnitCompare
           [AddItem (shirt 3); AddItem (jeans [] 1 None)] (with_id (shirt 3) "10")).
  apply list_elem_of_here.
Defined.

Lemma onDecrease_takes_one_witness :
  let state := run codeUnitCompare [AddItem (shirt 3)] initialState in
  let e := with_id (shirt 3) "10" in
  useCartItemCount (onDecrease e state) = useCartItemCount state - 1 ∧
  (quantity e = 1 → onDecrease e state = removeItem (id e) state) ∧
  (1 < quantity e → with_quantity e (quantity e - 1) ∈ items (onDecrease e state)).
Proof.
  intros state e.
  apply (onDecrease_takes_one codeUnitCompare [AddItem (shirt 3)] e).
  - apply list_elem_of_here.
  - simpl. lia.
  - by intros m [=].
Defined.

Lemma onIncrease_adds_one_witness :
  let attrs := [("Size", "M")] in
  let state := run codeUnitCompare [AddItem (jeans attrs 1 (Some 2))] initialState in
  let e := with_id (jeans attrs 1 (Some 2)) "5-99-Size:M" in
  useCartItemCount (onIncrease e state) = useCartItemCount state + 1 ∧
  with_quantity e (quantity e + 1) ∈ items (onIncrease e state) ∧
  withinCeiling (quantity e + 1) (maxQuantity e).
Proof.
  intros attrs state e.
  apply (onIncrease_adds_one codeUnitCompare [AddItem (jeans attrs 1 (Some 2))] e).
  - apply list_elem_of_here.
  - simpl. lia.
  - reflexivity.
Defined.

Lemma updateQuantity_last_wins_witness :
  let state := run codeUnitCompare [AddItem (shirt 3)] initialState in
  updateQuantity "10" 2 (updateQuantity "10" 5 state) = updateQuantity "10" 2 state.
Proof.
  intros state. apply (updateQuantity_last_wins "10" 5 2 state). lia.
Defined.

Lemma removeItem_undoes_addItem_witness :
  removeItem "10" (addItem codeUnitCompare (shirt 1) initialState) =
    {| items := []; isOpen := true |}.
Proof.
  apply (removeItem_undoes_addItem codeUnitCompare (shirt 1) initialState).
  simpl. apply not_elem_of_nil.
Defined.

Lemma items_ignore_visibility_witness :
  items (run codeUnitCompare [OpenCart; AddItem (shirt 1); ToggleCart; AddItem (shirt 2)]
           initialState) =
  items (run codeUnitCompare [AddItem (shirt 1); AddItem (shirt 2)]
           {| items := []; isOpen := true |}).
Proof.
  apply (items_ignore_visibility codeUnitCompare
           [OpenCart; AddItem (shirt 1); ToggleCart; AddItem (shirt 2)]
           initialState {| items := []; isOpen := true |}).
  reflexivity.
Defined.

Lemma stored_id_is_derived_witness :
  let e := with_id (jeans [("Size", "M")] 1 None) "5-99-Size:M" in
  id e = generateCartItemId codeUnitCompare (productId e) (variationId e) (attributes e).
Proof.
  intros e.
  apply (stored_id_is_derived codeUnitCompare
           [AddItem (shirt 1); AddItem (jeans [("Size", "M")] 1 None)] e).
  apply list_elem_of_further, list_elem_of_here.
Defined.

Lemma lines_unique_by_variant_witness : 1%nat = 1%nat.
Proof.
  apply (lines_unique_by_variant codeUnitCompare
           [AddItem (shirt 1); AddItem (jeans [("Size", "M")] 1 None)] 1 1
           (with_id (jeans [("Size", "M")] 1 None) "5-99-Size:M")
           (with_id (jeans [("Size", "M")] 1 None) "5-99-Size:M"));
    reflexivity.
Defined.

Lemma generateCartItemId_fixes_productId_witness : 5 = 5.
Proof.
  apply (generateCartItemId_fixes_productId codeUnitCompare 5 5
           (Some 0) None (Some []) None).
  reflexivity.
Defined.

Lemma selectedQuantity_within_stock_witness :
  let item := jeans [("Size", "M")] 2 (Some 3) in
  let presses := [(Some 3, Plus); (Some 3, Plus); (Some 3, Plus); (Some 3, Plus);
                  (Some 3, Minus)] in
  1 ≤ selectedQuantity presses ∧
  withinCeiling (selectedQuantity presses) (maxQuantityOf (Some 3)) ∧
  (incrementDisabled (Some 3) (selectedQuantity presses) = true →
   selectedQuantity (presses ++ [(Some 3, Plus)]) = selectedQuantity presses) ∧
  requestsWithinCeiling (AddItem item) ∧
  requestsAtLeastOne (AddItem item).
Proof.
  intros item presses.
  apply (selectedQuantity_within_stock (Some 3) presses item).
  - intros m [= <-]. lia.
  - repeat apply Forall_cons_2; try apply Forall_nil_2; reflexivity.
  - reflexivity.
  - reflexivity.
Defined.

Lemma badge_agrees_with_empty_cart_witness :
  let state := run codeUnitCompare [AddItem (shirt 2); UpdateQuantity "10" 0]
                 initialState in
  Z.of_nat (length (useCartItems state)) ≤ useCartItemCount state ∧
  badgeShown state = negb (useCartIsEmpty state).
Proof.
  apply (badge_agrees_with_empty_cart codeUnitCompare
           [AddItem (shirt 2); UpdateQuantity "10" 0]).
  repeat apply Forall_cons_2; try apply Forall_nil_2; simpl; try done;
    (split; [lia|by intros m [=]]).
Defined.
